(** * The booking engine of the tennis-court reservation app

    A shallow embedding of the local API of [src/components/ui/TenisApp.jsx]
    ([createApi] and the helpers it uses), followed by the properties of the
    reservation and payment life cycle.

    Conventions of the embedding.
    - A JavaScript string is a [string]; every character stands for one
      code unit, so the embedding is exact on ASCII text.
    - Prices and amounts are integers ([Z]); the administration screen only
      ever stores [parseInt] results clamped to 0..1000000.
    - [uid], [nowISOTime], [new Date()] and the platform's date parser and
      [JSON.stringify] are read from an environment [Env]; every reading of
      the random source or of the clock consumes one tick of the world.
    - [commit] applies its mutator to the store at once; [structuredClone]
      and [persistState] have no counterpart in a pure store.
    - An API object is built by [createApi db setDb] from a snapshot [db];
      reads outside [commit] go to the snapshot, the mutators to the store. *)

From Stdlib Require Import String Ascii List ZArith Bool Arith Lia HexadecimalString.
Import ListNotations.
Open Scope string_scope.

(** ** JavaScript strings *)

Definition is_upper (c : ascii) : bool :=
  let n := nat_of_ascii c in (65 <=? n)%nat && (n <=? 90)%nat.

Definition is_lower (c : ascii) : bool :=
  let n := nat_of_ascii c in (97 <=? n)%nat && (n <=? 122)%nat.

Definition is_digit (c : ascii) : bool :=
  let n := nat_of_ascii c in (48 <=? n)%nat && (n <=? 57)%nat.

(** White space removed by [String.prototype.trim]. *)
Definition is_white (c : ascii) : bool :=
  let n := nat_of_ascii c in
  ((9 <=? n)%nat && (n <=? 13)%nat) || (n =? 32)%nat || (n =? 160)%nat.

(** Line terminators, which [.] of a regular expression does not match. *)
Definition is_line_terminator (c : ascii) : bool :=
  let n := nat_of_ascii c in (n =? 10)%nat || (n =? 13)%nat.

Fixpoint trimStart (s : string) : string :=
  match s with
  | EmptyString => EmptyString
  | String c s' => if is_white c then trimStart s' else s
  end.

Definition string_rev (s : string) : string :=
  string_of_list_ascii (rev (list_ascii_of_string s)).

Definition trim (s : string) : string :=
  string_rev (trimStart (string_rev (trimStart s))).

Definition lower_char (c : ascii) : ascii :=
  if is_upper c then ascii_of_nat (nat_of_ascii c + 32) else c.

Fixpoint toLowerCase (s : string) : string :=
  match s with
  | EmptyString => EmptyString
  | String c s' => String (lower_char c) (toLowerCase s')
  end.

(** [s.includes(c)] for a one-character needle. *)
Fixpoint includes_char (s : string) (c : ascii) : bool :=
  match s with
  | EmptyString => false
  | String d s' => Ascii.eqb d c || includes_char s' c
  end.

(** [!s] on a string: only the empty string is falsy. *)
Definition is_empty (s : string) : bool :=
  match s with EmptyString => true | _ => false end.

(** [a || b] on strings. *)
Definition str_or (a b : string) : string := if is_empty a then b else a.

Definition string_of_bool (b : bool) : string := if b then "true" else "false".

(** ** A fragment of regular expressions, enough for [passRegex]

    Matching is by continuation: [rx_match r at_start s k] holds when [r]
    matches a prefix of [s] and [k] accepts the rest.  [at_start] tells whether
    the position is the start of the input. *)

Inductive regex : Type :=
| RxBegin                                   (* ^ (no m flag) *)
| RxEnd                                     (* $ (no m flag) *)
| RxClass (p : ascii -> bool)               (* one character of a class *)
| RxStar (p : ascii -> bool)                (* c* for a class c *)
| RxAtLeast (n : nat) (p : ascii -> bool)   (* c{n,} for a class c *)
| RxLookahead (r : regex)                   (* (?=r) *)
| RxSeq (r1 r2 : regex).

Fixpoint star_match (p : ascii -> bool) (at_start : bool) (s : string)
  (k : bool -> string -> bool) : bool :=
  k at_start s ||
  match s with
  | EmptyString => false
  | String c s' => p c && star_match p false s' k
  end.

Fixpoint at_least_match (n : nat) (p : ascii -> bool) (at_start : bool)
  (s : string) (k : bool -> string -> bool) : bool :=
  match n with
  | O => star_match p at_start s k
  | S n' =>
      match s with
      | EmptyString => false
      | String c s' => p c && at_least_match n' p false s' k
      end
  end.

Fixpoint rx_match (r : regex) (at_start : bool) (s : string)
  (k : bool -> string -> bool) : bool :=
  match r with
  | RxBegin => at_start && k at_start s
  | RxEnd => is_empty s && k at_start s
  | RxClass p =>
      match s with
      | EmptyString => false
      | String c s' => p c && k false s'
      end
  | RxStar p => star_match p at_start s k
  | RxAtLeast n p => at_least_match n p at_start s k
  | RxLookahead r1 => rx_match r1 at_start s (fun _ _ => true) && k at_start s
  | RxSeq r1 r2 => rx_match r1 at_start s (fun b s' => rx_match r2 b s' k)
  end.

(** [r.test(s)]: a match may start at any position of [s]. *)
Fixpoint rx_search (r : regex) (at_start : bool) (s : string) : bool :=
  rx_match r at_start s (fun _ _ => true) ||
  match s with
  | EmptyString => false
  | String _ s' => rx_search r false s'
  end.

Definition rx_test (r : regex) (s : string) : bool := rx_search r true s.

Definition rx_dot (c : ascii) : bool := negb (is_line_terminator c).
Definition rx_A_Z (c : ascii) : bool := is_upper c.
Definition rx_not_alnum (c : ascii) : bool :=
  negb (is_upper c || is_lower c || is_digit c).

(** [/^(?=.*[A-Z])(?=.*[^A-Za-z0-9]).{6,}$/] *)
Definition passRegex : regex :=
  RxSeq RxBegin
   (RxSeq (RxLookahead (RxSeq (RxStar rx_dot) (RxClass rx_A_Z)))
     (RxSeq (RxLookahead (RxSeq (RxStar rx_dot) (RxClass rx_not_alnum)))
       (RxSeq (RxAtLeast 6 rx_dot) RxEnd))).

(** ** Domain *)

(** [RES_STATUS] *)
Inductive ResStatus : Type := PENDING_PAYMENT | CONFIRMED | CANCELLED | NO_SHOW.

(** [PAY_STATUS] *)
Inductive PayStatus : Type := PENDING | APPROVED | REJECTED | REFUNDED_PARTIAL.

(** The values given to [payment.method]: "Mercado Pago" and
    "Efectivo (recepción)"; [null] is [None]. *)
Inductive PayMethod : Type := MercadoPago | Efectivo.

(** [userType]: "Socio" or "No Socio". *)
Inductive UserType : Type := Socio | NoSocio.

(** [role]: "admin" or "user". *)
Inductive Role : Type := RoleAdmin | RoleUser.

(** [NOTIF_CHANNELS] *)
Inductive Channel : Type := ChEmail | ChWhatsApp.

Definition NOTIF_CHANNELS : list Channel := [ChEmail; ChWhatsApp].

Definition res_status_eqb (a b : ResStatus) : bool :=
  match a, b with
  | PENDING_PAYMENT, PENDING_PAYMENT | CONFIRMED, CONFIRMED
  | CANCELLED, CANCELLED | NO_SHOW, NO_SHOW => true
  | _, _ => false
  end.

Definition user_type_eqb (a b : UserType) : bool :=
  match a, b with
  | Socio, Socio | NoSocio, NoSocio => true
  | _, _ => false
  end.

Module Config.
Record t : Type := mk {
  authMode : string;
  requireEmailValidation : bool;
  requirePhoneValidation : bool;
  priceSocio : Z;
  priceNoSocio : Z;
  currency : string }.
End Config.

(** The [patch] of [setConfig]: the fields that are present. *)
Module ConfigPatch.
Record t : Type := mk {
  authMode : option string;
  requireEmailValidation : option bool;
  requirePhoneValidation : option bool;
  priceSocio : option Z;
  priceNoSocio : option Z;
  currency : option string }.
End ConfigPatch.

Module Court.
Record t : Type := mk { id : string; name : string; isActive : bool }.
End Court.

Module User.
Record t : Type := mk {
  id : string;
  role : Role;
  email : string;
  phone : string;
  dni : string;
  userType : UserType;
  createdAt : string;
  passwordHash : string;
  isEmailValidated : bool;
  isPhoneValidated : bool }.
End User.

Module Reservation.
Record t : Type := mk {
  id : string;
  userId : string;
  createdBy : string;
  dateISO : string;
  time : string;
  courtId : string;
  status : ResStatus;
  price : Z;
  createdAt : string;
  updatedAt : string;
  cancelReason : option string }.
End Reservation.

(** [payment.meta]: [{}], [{ mp }], [{ cash }], each possibly with [refund]. *)
Module Meta.
Record mp_t : Type := mk_mp { mp_status : string; operationId : string; mp_at : string }.
Record cash_t : Type := mk_cash { cash_by : string; cash_at : string }.
Record refund_t : Type := mk_refund {
  percent : Z; amount : Z; refund_by : string; refund_at : string }.
Record t : Type := mk {
  mp : option mp_t; cash : option cash_t; refund : option refund_t }.
Definition empty : t := mk None None None.
End Meta.

Module Payment.
Record t : Type := mk {
  id : string;
  reservationId : string;
  method : option PayMethod;
  status : PayStatus;
  amount : Z;
  createdAt : string;
  updatedAt : string;
  meta : Meta.t }.
End Payment.

Module Block.
Record t : Type := mk {
  id : string;
  courtId : string;
  dateISO : string;
  time : string;
  reason : string;
  createdBy : string;
  createdAt : string }.
End Block.

Module AuditEntry.
Record t : Type := mk {
  id : string; at_ : string; by_ : string; action : string; detail : string }.
End AuditEntry.

(** The payloads that the API hands to [notify]. *)
Inductive Payload : Type :=
| PlMsg (msg : string)
| PlValidation (emailOk phoneOk : option bool)
| PlCreated (reservationId dateISO time courtId : string) (price : Z)
| PlPaid (reservationId : string)
| PlPaidCash (reservationId : string)
| PlCancelled (reservationId : string) (reason : option string)
| PlRefund (reservationId : string) (refundPercent : Z).

Module Notification.
Record t : Type := mk {
  id : string;
  at_ : string;
  channel : Channel;
  to : string;
  event : string;
  payload : Payload }.
End Notification.

Module DB.
Record t : Type := mk {
  config : Config.t;
  courts : list Court.t;
  users : list User.t;
  sessions : option string;
  reservations : list Reservation.t;
  payments : list Payment.t;
  blocks : list Block.t;
  audit : list AuditEntry.t;
  notifications : list Notification.t }.

Definition set_config (f : Config.t -> Config.t) (st : t) : t :=
  mk (f (config st)) (courts st) (users st) (sessions st) (reservations st)
     (payments st) (blocks st) (audit st) (notifications st).
Definition set_courts (f : list Court.t -> list Court.t) (st : t) : t :=
  mk (config st) (f (courts st)) (users st) (sessions st) (reservations st)
     (payments st) (blocks st) (audit st) (notifications st).
Definition set_users (f : list User.t -> list User.t) (st : t) : t :=
  mk (config st) (courts st) (f (users st)) (sessions st) (reservations st)
     (payments st) (blocks st) (audit st) (notifications st).
Definition set_reservations (f : list Reservation.t -> list Reservation.t)
  (st : t) : t :=
  mk (config st) (courts st) (users st) (sessions st) (f (reservations st))
     (payments st) (blocks st) (audit st) (notifications st).
Definition set_payments (f : list Payment.t -> list Payment.t) (st : t) : t :=
  mk (config st) (courts st) (users st) (sessions st) (reservations st)
     (f (payments st)) (blocks st) (audit st) (notifications st).
Definition set_blocks (f : list Block.t -> list Block.t) (st : t) : t :=
  mk (config st) (courts st) (users st) (sessions st) (reservations st)
     (payments st) (f (blocks st)) (audit st) (notifications st).
Definition set_audit (f : list AuditEntry.t -> list AuditEntry.t) (st : t) : t :=
  mk (config st) (courts st) (users st) (sessions st) (reservations st)
     (payments st) (blocks st) (f (audit st)) (notifications st).
Definition set_notifications
  (f : list Notification.t -> list Notification.t) (st : t) : t :=
  mk (config st) (courts st) (users st) (sessions st) (reservations st)
     (payments st) (blocks st) (audit st) (f (notifications st)).
End DB.

(** [COURTS_DEFAULT] *)
Definition COURTS_DEFAULT : list Court.t :=
  [ Court.mk "c1" "Cancha 1" true; Court.mk "c2" "Cancha 2" true;
    Court.mk "c3" "Cancha 3" true; Court.mk "c4" "Cancha 4" true ].

Definition AUTH_MODE : string := "EMAIL_PASSWORD".

(** [APP_CONFIG_DEFAULT] *)
Definition APP_CONFIG_DEFAULT : Config.t :=
  Config.mk AUTH_MODE true true 0 8000 "ARS".

(** ** Array helpers *)

(** [const x = arr.find(p); x.field = ...]: the first match is updated in
    place, nothing happens when there is none. *)
Fixpoint update_first {A : Type} (p : A -> bool) (f : A -> A) (l : list A) : list A :=
  match l with
  | [] => []
  | x :: l' => if p x then f x :: l' else x :: update_first p f l'
  end.

(** [arr.push(x)] *)
Definition push {A : Type} (x : A) (l : list A) : list A := (l ++ [x])%list.

(** [arr.unshift(...xs)] *)
Definition unshift {A : Type} (xs : list A) (l : list A) : list A := (xs ++ l)%list.

(** ** Dates at day granularity

    A [Date] is a local calendar day number and the milliseconds elapsed
    since that day's midnight; [None] is an Invalid Date, whose comparisons
    are all false. *)

Definition JsDate : Type := option (Z * Z).

Definition startOfDay (d : JsDate) : JsDate :=
  match d with Some (day, _) => Some (day, 0%Z) | None => None end.

Definition addDays (d : JsDate) (n : Z) : JsDate :=
  match d with Some (day, ms) => Some ((day + n)%Z, ms) | None => None end.

Definition date_ltb (a b : JsDate) : bool :=
  match a, b with
  | Some (d1, m1), Some (d2, m2) => (d1 <? d2)%Z || ((d1 =? d2)%Z && (m1 <? m2)%Z)
  | _, _ => false
  end.

Definition date_gtb (a b : JsDate) : bool := date_ltb b a.

(** ** Environment, world and the API monad *)

Record Env : Type := {
  (** the n-th reading of [Math.random().toString(16).slice(2)] *)
  random_hex : nat -> string;
  (** the n-th reading of [Date.now().toString(16)] *)
  now_hex : nat -> string;
  (** the n-th reading of [new Date().toISOString()] *)
  now_iso : nat -> string;
  (** the n-th reading of [new Date()], never invalid *)
  now_date : nat -> Z * Z;
  (** [new Date(s)] for a string [s] *)
  parse_date : string -> JsDate;
  (** [JSON.stringify(patch)] *)
  JSON_stringify : ConfigPatch.t -> string }.

Record World : Type := mkWorld { store : DB.t; tick : nat }.

(** [throw new Error(message)] *)
Inductive JsError : Type := Error (message : string).

Inductive Result (A : Type) : Type :=
| Ok (a : A)
| Throw (e : JsError).
Arguments Ok {A} a.
Arguments Throw {A} e.

Definition M (A : Type) : Type := Env -> World -> Result A * World.

Definition ret {A : Type} (a : A) : M A := fun _ w => (Ok a, w).

Definition bind {A B : Type} (m : M A) (f : A -> M B) : M B :=
  fun env w =>
    match m env w with
    | (Ok a, w') => f a env w'
    | (Throw e, w') => (Throw e, w')
    end.

Definition throw {A : Type} (e : JsError) : M A := fun _ w => (Throw e, w).

Declare Scope api_scope.
Delimit Scope api_scope with api.
Notation "x <- m ;; k" := (bind m (fun x => k))
  (at level 61, m at next level, right associativity) : api_scope.
Notation "m ;; k" := (bind m (fun _ => k))
  (at level 61, right associativity) : api_scope.
Open Scope api_scope.

(** [if (c) throw new Error(msg)] *)
Definition throw_if (c : bool) (e : JsError) : M unit :=
  if c then throw e else ret tt.

Definition get_store : M DB.t := fun _ w => (Ok (store w), w).

Definition modify_store (f : DB.t -> DB.t) : M unit :=
  fun _ w => (Ok tt, mkWorld (f (store w)) (tick w)).

(** One reading of the environment. *)
Definition read_env {A : Type} (f : Env -> nat -> A) : M A :=
  fun env w => (Ok (f env (tick w)), mkWorld (store w) (S (tick w))).

Definition uid (prefix : string) : M string :=
  read_env (fun env n => prefix ++ "_" ++ random_hex env n ++ "_" ++ now_hex env n).

Definition nowISOTime : M string := read_env now_iso.

Definition new_Date : M JsDate := read_env (fun env n => Some (now_date env n)).

Definition ask : M Env := fun env w => (Ok env, w).

(** ** Errors: the messages thrown by the API, under the names of the
    error taxonomy *)

Definition InvalidInput_dni : JsError := Error "DNI inválido".
Definition InvalidInput_email : JsError := Error "Email inválido".
Definition InvalidInput_phone : JsError := Error "Teléfono obligatorio".
Definition WeakPassword : JsError :=
  Error "La contraseña debe tener mínimo 6 caracteres, 1 mayúscula y 1 símbolo (@, -, etc)".
Definition DuplicateUser : JsError := Error "Ya existe un usuario con ese email o DNI".
Definition UserNotFound : JsError := Error "Usuario no encontrado".
Definition InvalidCredentials : JsError := Error "Credenciales inválidas".
Definition InvalidUser : JsError := Error "Usuario inválido".
Definition AccountNotValidated_email : JsError :=
  Error "Debés validar tu email antes de reservar".
Definition AccountNotValidated_phone : JsError :=
  Error "Debés validar tu WhatsApp antes de reservar".
Definition PastDate : JsError := Error "No podés reservar en fechas pasadas".
Definition TooFarAhead : JsError :=
  Error "Solo podés reservar con hasta 7 días de anticipación".
Definition ResourceUnavailable : JsError := Error "Cancha no disponible".
Definition SlotBlocked : JsError := Error "Horario bloqueado por mantenimiento".
Definition SlotTaken : JsError := Error "Ese turno ya está reservado".
Definition UserDoubleBooked : JsError :=
  Error "Ya tenés una reserva en ese mismo horario".

(** ** The local API: [createApi(db, setDb)] *)

Definition commit (mutator : M unit) : M unit := mutator.

Definition audit (by_ action detail : string) : M unit :=
  commit (
    id <- uid "aud" ;;
    at_ <- nowISOTime ;;
    modify_store (DB.set_audit (unshift [AuditEntry.mk id at_ by_ action detail]))).

Fixpoint notify_map (event : string) (channels : list Channel) (to : string)
  (payload : Payload) : M (list Notification.t) :=
  match channels with
  | [] => ret []
  | ch :: rest =>
      id <- uid "ntf" ;;
      at_ <- nowISOTime ;;
      created <- notify_map event rest to payload ;;
      ret (Notification.mk id at_ ch to event payload :: created)
  end.

Definition notify (event : string) (channels : list Channel) (to : string)
  (payload : Payload) : M unit :=
  commit (
    created <- notify_map event channels to payload ;;
    modify_store (DB.set_notifications (unshift created))).

(** [bootstrapState], on an empty [localStorage]. *)
Definition bootstrapState : M unit :=
  adminId <- uid "usr" ;;
  createdAt <- nowISOTime ;;
  audId <- uid "aud" ;;
  at_ <- nowISOTime ;;
  modify_store (fun _ =>
    DB.mk APP_CONFIG_DEFAULT COURTS_DEFAULT
      [User.mk adminId RoleAdmin "admin@edlp.com" "11-0000-0000" "12345678"
         Socio createdAt "admin" true true]
      None [] [] []
      [AuditEntry.mk audId at_ adminId "Seed"
         "Sistema inicializado con usuario admin demo (admin@edlp.com / admin)"]
      []).

Definition option_or {A : Type} (o : option A) (d : A) : A :=
  match o with Some a => a | None => d end.

(** [{ ...st.config, ...patch }] *)
Definition merge_config (c : Config.t) (patch : ConfigPatch.t) : Config.t :=
  Config.mk
    (option_or (ConfigPatch.authMode patch) (Config.authMode c))
    (option_or (ConfigPatch.requireEmailValidation patch) (Config.requireEmailValidation c))
    (option_or (ConfigPatch.requirePhoneValidation patch) (Config.requirePhoneValidation c))
    (option_or (ConfigPatch.priceSocio patch) (Config.priceSocio c))
    (option_or (ConfigPatch.priceNoSocio patch) (Config.priceNoSocio c))
    (option_or (ConfigPatch.currency patch) (Config.currency c)).

Definition setConfig (db : DB.t) (by_ : string) (patch : ConfigPatch.t) : M unit :=
  commit (modify_store (DB.set_config (fun c => merge_config c patch))) ;;
  env <- ask ;;
  audit by_ "Config" (JSON_stringify env patch).

Fixpoint last_char (s : string) : option ascii :=
  match s with
  | EmptyString => None
  | String c EmptyString => Some c
  | String _ s' => last_char s'
  end.

(** The demo rule of the members' registry: a DNI ending in an even digit is
    an active member (the empty string converts to the number 0). *)
Definition validateSocioByDNI (dni : string) : bool :=
  match last_char (trim dni) with
  | None => true
  | Some c => is_digit c && Nat.even (nat_of_ascii c)
  end.

Definition user_type_label (t : UserType) : string :=
  match t with Socio => "Socio" | NoSocio => "No Socio" end.

Definition register (db : DB.t) (email phone dni password : string) : M string :=
  let dniClean := trim dni in
  let emailClean := toLowerCase (trim email) in
  let phoneClean := trim phone in
  let pass := password in
  throw_if (is_empty dniClean || (String.length dniClean <? 6)%nat) InvalidInput_dni ;;
  throw_if (negb (includes_char emailClean "@")) InvalidInput_email ;;
  throw_if (is_empty phoneClean) InvalidInput_phone ;;
  throw_if (negb (rx_test passRegex pass)) WeakPassword ;;
  let exists_ :=
    existsb (fun u => (User.email u =? emailClean) || (User.dni u =? dniClean))
      (DB.users db) in
  throw_if exists_ DuplicateUser ;;
  let socioActivo := validateSocioByDNI dniClean in
  let userType := if socioActivo then Socio else NoSocio in
  id <- uid "usr" ;;
  commit (
    createdAt <- nowISOTime ;;
    modify_store (DB.set_users (push
      (User.mk id RoleUser emailClean phoneClean dniClean userType createdAt pass
         false false)))) ;;
  audit id "Register" ("Alta usuario (" ++ user_type_label userType ++ ")") ;;
  notify "Validación de cuenta" NOTIF_CHANNELS emailClean
    (PlMsg "Tu cuenta fue creada. Validá email/WhatsApp para reservar.") ;;
  ret id.

Definition loginEmailPassword (db : DB.t) (email password : string) : M string :=
  let e := toLowerCase (trim email) in
  match find (fun x => User.email x =? e) (DB.users db) with
  | None => throw UserNotFound
  | Some u =>
      throw_if (negb (User.passwordHash u =? password)) InvalidCredentials ;;
      audit (User.id u) "Login" "Email+Password" ;;
      ret (User.id u)
  end.

Definition set_validation (emailOk phoneOk : option bool) (u : User.t) : User.t :=
  User.mk (User.id u) (User.role u) (User.email u) (User.phone u) (User.dni u)
    (User.userType u) (User.createdAt u) (User.passwordHash u)
    (option_or emailOk (User.isEmailValidated u))
    (option_or phoneOk (User.isPhoneValidated u)).

(** [${flag ?? "-"}] *)
Definition flag_label (o : option bool) : string :=
  match o with Some b => string_of_bool b | None => "-" end.

Definition validateAccount (db : DB.t) (by_ : string) (emailOk phoneOk : option bool)
  : M unit :=
  commit (modify_store (DB.set_users
    (update_first (fun x => User.id x =? by_) (set_validation emailOk phoneOk)))) ;;
  audit by_ "Account"
    ("Validación: email=" ++ flag_label emailOk ++ ", phone=" ++ flag_label phoneOk) ;;
  match find (fun x => User.id x =? by_) (DB.users db) with
  | Some u => notify "Validación de cuenta" NOTIF_CHANNELS (User.email u)
                (PlValidation emailOk phoneOk)
  | None => ret tt
  end.

Definition setCourtActive (db : DB.t) (by_ courtId : string) (isActive : bool) : M unit :=
  commit (modify_store (DB.set_courts
    (update_first (fun x => Court.id x =? courtId)
       (fun c => Court.mk (Court.id c) (Court.name c) isActive)))) ;;
  audit by_ "Court" (courtId ++ " active=" ++ string_of_bool isActive).

Definition addBlock (db : DB.t) (by_ courtId dateISO time reason : string) : M string :=
  id <- uid "blk" ;;
  commit (
    createdAt <- nowISOTime ;;
    modify_store (DB.set_blocks
      (push (Block.mk id courtId dateISO time reason by_ createdAt)))) ;;
  audit by_ "Block"
    (courtId ++ " " ++ dateISO ++ " " ++ time ++ " (" ++ str_or reason "s/reason" ++ ")") ;;
  ret id.

Definition removeBlock (db : DB.t) (by_ blockId : string) : M unit :=
  commit (modify_store (DB.set_blocks
    (filter (fun b => negb (Block.id b =? blockId))))) ;;
  audit by_ "Unblock" blockId.

(** [forUserId || by]: the user a reservation is made for. *)
Definition target_user_id (forUserId : option string) (by_ : string) : string :=
  str_or (option_or forUserId EmptyString) by_.

(** The three conflict predicates of [createReservation]. *)
Definition block_matches (courtId dateISO time : string) (b : Block.t) : bool :=
  (Block.courtId b =? courtId) && (Block.dateISO b =? dateISO) && (Block.time b =? time).

Definition occupies_court (courtId dateISO time : string) (r : Reservation.t) : bool :=
  (Reservation.courtId r =? courtId) && (Reservation.dateISO r =? dateISO)
  && (Reservation.time r =? time)
  && negb (res_status_eqb (Reservation.status r) CANCELLED).

Definition occupies_user (userId dateISO time : string) (r : Reservation.t) : bool :=
  (Reservation.userId r =? userId) && (Reservation.dateISO r =? dateISO)
  && (Reservation.time r =? time)
  && negb (res_status_eqb (Reservation.status r) CANCELLED).

Definition createReservation (db : DB.t) (by_ dateISO time courtId : string)
  (forUserId : option string) : M string :=
  match find (fun x => User.id x =? target_user_id forUserId by_) (DB.users db) with
  | None => throw InvalidUser
  | Some u =>
      let cfg := DB.config db in
      throw_if (Config.requireEmailValidation cfg && negb (User.isEmailValidated u))
        AccountNotValidated_email ;;
      throw_if (Config.requirePhoneValidation cfg && negb (User.isPhoneValidated u))
        AccountNotValidated_phone ;;
      now <- new_Date ;;
      env <- ask ;;
      let today := startOfDay now in
      let target := startOfDay (parse_date env (dateISO ++ "T00:00:00")) in
      let max := startOfDay (addDays today 7) in
      throw_if (date_ltb target today) PastDate ;;
      throw_if (date_gtb target max) TooFarAhead ;;
      let c := find (fun x => Court.id x =? courtId) (DB.courts db) in
      throw_if (match c with None => true | Some c => negb (Court.isActive c) end)
        ResourceUnavailable ;;
      let blocked := existsb (block_matches courtId dateISO time) (DB.blocks db) in
      throw_if blocked SlotBlocked ;;
      let conflictCourt :=
        existsb (occupies_court courtId dateISO time) (DB.reservations db) in
      throw_if conflictCourt SlotTaken ;;
      let conflictUser :=
        existsb (occupies_user (User.id u) dateISO time) (DB.reservations db) in
      throw_if conflictUser UserDoubleBooked ;;
      id <- uid "res" ;;
      let price :=
        if user_type_eqb (User.userType u) Socio
        then Config.priceSocio (DB.config db) else Config.priceNoSocio (DB.config db) in
      commit (
        createdAt <- nowISOTime ;;
        updatedAt <- nowISOTime ;;
        modify_store (DB.set_reservations (push
          (Reservation.mk id (User.id u) by_ dateISO time courtId PENDING_PAYMENT
             price createdAt updatedAt None))) ;;
        payId <- uid "pay" ;;
        pCreatedAt <- nowISOTime ;;
        pUpdatedAt <- nowISOTime ;;
        modify_store (DB.set_payments (push
          (Payment.mk payId id None PENDING price pCreatedAt pUpdatedAt Meta.empty)))) ;;
      audit by_ "Reserva"
        ("Creada " ++ id ++ " (" ++ dateISO ++ " " ++ time ++ " " ++ courtId ++ ")") ;;
      notify "Reserva creada" NOTIF_CHANNELS (User.email u)
        (PlCreated id dateISO time courtId price) ;;
      ret id
  end.

Definition set_res_status (s : ResStatus) (updatedAt : string)
  (cancelReason : option string) (r : Reservation.t) : Reservation.t :=
  Reservation.mk (Reservation.id r) (Reservation.userId r) (Reservation.createdBy r)
    (Reservation.dateISO r) (Reservation.time r) (Reservation.courtId r) s
    (Reservation.price r) (Reservation.createdAt r) updatedAt cancelReason.

Definition set_pay (method : option PayMethod) (s : PayStatus) (updatedAt : string)
  (meta : Meta.t) (p : Payment.t) : Payment.t :=
  Payment.mk (Payment.id p) (Payment.reservationId p) method s (Payment.amount p)
    (Payment.createdAt p) updatedAt meta.

Definition has_id (reservationId : string) (r : Reservation.t) : bool :=
  Reservation.id r =? reservationId.

Definition pays_for (reservationId : string) (p : Payment.t) : bool :=
  Payment.reservationId p =? reservationId.

(** The tail shared by the four transitions: the owner of the reservation,
    looked up in the snapshot, is notified when found. *)
Definition owner_email (db : DB.t) (reservationId : string) : option string :=
  match find (has_id reservationId) (DB.reservations db) with
  | None => None
  | Some r =>
      match find (fun x => User.id x =? Reservation.userId r) (DB.users db) with
      | None => None
      | Some u => Some (User.email u)
      end
  end.

Definition payWithMercadoPago (db : DB.t) (by_ reservationId : string) : M bool :=
  commit (
    st <- get_store ;;
    match find (has_id reservationId) (DB.reservations st),
          find (pays_for reservationId) (DB.payments st) with
    | Some _, Some _ =>
        pUpdatedAt <- nowISOTime ;;
        operationId <- uid "mp" ;;
        mpAt <- nowISOTime ;;
        modify_store (DB.set_payments (update_first (pays_for reservationId)
          (set_pay (Some MercadoPago) APPROVED pUpdatedAt
             (Meta.mk (Some (Meta.mk_mp "approved" operationId mpAt)) None None)))) ;;
        rUpdatedAt <- nowISOTime ;;
        modify_store (DB.set_reservations (update_first (has_id reservationId)
          (fun r => set_res_status CONFIRMED rUpdatedAt (Reservation.cancelReason r) r)))
    | _, _ => ret tt
    end) ;;
  audit by_ "Pago" ("MP aprobado (res=" ++ reservationId ++ ")") ;;
  match owner_email db reservationId with
  | Some to => notify "Pago confirmado" NOTIF_CHANNELS to (PlPaid reservationId)
  | None => ret tt
  end ;;
  ret true.

Definition registerCashPayment (db : DB.t) (by_ reservationId : string) : M unit :=
  commit (
    st <- get_store ;;
    match find (has_id reservationId) (DB.reservations st),
          find (pays_for reservationId) (DB.payments st) with
    | Some _, Some _ =>
        pUpdatedAt <- nowISOTime ;;
        cashAt <- nowISOTime ;;
        modify_store (DB.set_payments (update_first (pays_for reservationId)
          (set_pay (Some Efectivo) APPROVED pUpdatedAt
             (Meta.mk None (Some (Meta.mk_cash by_ cashAt)) None)))) ;;
        rUpdatedAt <- nowISOTime ;;
        modify_store (DB.set_reservations (update_first (has_id reservationId)
          (fun r => set_res_status CONFIRMED rUpdatedAt (Reservation.cancelReason r) r)))
    | _, _ => ret tt
    end) ;;
  audit by_ "Pago" ("Efectivo aprobado (res=" ++ reservationId ++ ")") ;;
  match owner_email db reservationId with
  | Some to => notify "Pago confirmado" NOTIF_CHANNELS to (PlPaidCash reservationId)
  | None => ret tt
  end.

Definition cancelReservation (db : DB.t) (by_ reservationId : string)
  (reason : option string) : M unit :=
  commit (
    st <- get_store ;;
    match find (has_id reservationId) (DB.reservations st) with
    | Some _ =>
        updatedAt <- nowISOTime ;;
        modify_store (DB.set_reservations (update_first (has_id reservationId)
          (set_res_status CANCELLED updatedAt (Some (option_or reason EmptyString)))))
    | None => ret tt
    end) ;;
  audit by_ "Reserva"
    ("Cancelada " ++ reservationId ++ " (" ++ str_or (option_or reason EmptyString) "sin motivo" ++ ")") ;;
  match owner_email db reservationId with
  | Some to => notify "Cancelación" NOTIF_CHANNELS to (PlCancelled reservationId reason)
  | None => ret tt
  end.

(** [Math.round(a * 0.5)] on an integer [a]: the half, ties towards
    positive infinity. *)
Definition Math_round_half (a : Z) : Z := ((a + 1) / 2)%Z.

Definition markNoShowAndRefund50 (db : DB.t) (by_ reservationId : string) : M unit :=
  commit (
    st <- get_store ;;
    match find (has_id reservationId) (DB.reservations st),
          find (pays_for reservationId) (DB.payments st) with
    | Some _, Some _ =>
        rUpdatedAt <- nowISOTime ;;
        modify_store (DB.set_reservations (update_first (has_id reservationId)
          (fun r => set_res_status NO_SHOW rUpdatedAt (Reservation.cancelReason r) r))) ;;
        pUpdatedAt <- nowISOTime ;;
        refundAt <- nowISOTime ;;
        modify_store (DB.set_payments (update_first (pays_for reservationId)
          (fun p => set_pay (Payment.method p) REFUNDED_PARTIAL pUpdatedAt
             (Meta.mk (Meta.mp (Payment.meta p)) (Meta.cash (Payment.meta p))
                (Some (Meta.mk_refund 50 (Math_round_half (Payment.amount p))
                         by_ refundAt))) p)))
    | _, _ => ret tt
    end) ;;
  audit by_ "NoShow" ("No presentación + reintegro 50% (res=" ++ reservationId ++ ")") ;;
  match owner_email db reservationId with
  | Some to =>
      notify "No presentación" NOTIF_CHANNELS to (PlRefund reservationId 50) ;;
      notify "Reintegros" NOTIF_CHANNELS to (PlRefund reservationId 50)
  | None => ret tt
  end.

Definition adminCreateManualReservation (db : DB.t) (by_ : string)
  (userId : option string) (dateISO time courtId : string) (markPaidCash : bool)
  : M string :=
  resId <- createReservation db by_ dateISO time courtId userId ;;
  (if markPaidCash then registerCashPayment db by_ resId else ret tt) ;;
  audit by_ "Admin" ("Reserva manual " ++ resId) ;;
  ret resId.

(** ** Calls and reachable states

    The application rebuilds its API object whenever the store changes
    ([useMemo(() => createApi(db, setDb), [db])]), so a call made through it
    sees the current store as its snapshot.  A step of the system is one such
    call, run to completion. *)

Inductive Call : Type :=
| CallSetConfig (by_ : string) (patch : ConfigPatch.t)
| CallRegister (email phone dni password : string)
| CallLoginEmailPassword (email password : string)
| CallValidateAccount (by_ : string) (emailOk phoneOk : option bool)
| CallSetCourtActive (by_ courtId : string) (isActive : bool)
| CallAddBlock (by_ courtId dateISO time reason : string)
| CallRemoveBlock (by_ blockId : string)
| CallCreateReservation (by_ dateISO time courtId : string) (forUserId : option string)
| CallPayWithMercadoPago (by_ reservationId : string)
| CallRegisterCashPayment (by_ reservationId : string)
| CallCancelReservation (by_ reservationId : string) (reason : option string)
| CallMarkNoShowAndRefund50 (by_ reservationId : string)
| CallAdminCreateManualReservation (by_ : string) (userId : option string)
    (dateISO time courtId : string) (markPaidCash : bool).

Definition ignore {A : Type} (m : M A) : M unit := _ <- m ;; ret tt.

Definition perform (db : DB.t) (c : Call) : M unit :=
  match c with
  | CallSetConfig by_ patch => setConfig db by_ patch
  | CallRegister email phone dni password => ignore (register db email phone dni password)
  | CallLoginEmailPassword email password => ignore (loginEmailPassword db email password)
  | CallValidateAccount by_ emailOk phoneOk => validateAccount db by_ emailOk phoneOk
  | CallSetCourtActive by_ courtId isActive => setCourtActive db by_ courtId isActive
  | CallAddBlock by_ courtId dateISO time reason =>
      ignore (addBlock db by_ courtId dateISO time reason)
  | CallRemoveBlock by_ blockId => removeBlock db by_ blockId
  | CallCreateReservation by_ dateISO time courtId forUserId =>
      ignore (createReservation db by_ dateISO time courtId forUserId)
  | CallPayWithMercadoPago by_ reservationId =>
      ignore (payWithMercadoPago db by_ reservationId)
  | CallRegisterCashPayment by_ reservationId => registerCashPayment db by_ reservationId
  | CallCancelReservation by_ reservationId reason =>
      cancelReservation db by_ reservationId reason
  | CallMarkNoShowAndRefund50 by_ reservationId =>
      markNoShowAndRefund50 db by_ reservationId
  | CallAdminCreateManualReservation by_ userId dateISO time courtId markPaidCash =>
      ignore (adminCreateManualReservation db by_ userId dateISO time courtId markPaidCash)
  end.

(** The world after call [c], made through the API of the current store. *)
Definition after (env : Env) (w : World) (c : Call) : World :=
  snd (perform (store w) c env w).

Fixpoint after_all (env : Env) (w : World) (cs : list Call) : World :=
  match cs with
  | [] => w
  | c :: cs' => after_all env (after env w c) cs'
  end.

(** The store before [bootstrapState] has run. *)
Definition blank : DB.t := DB.mk APP_CONFIG_DEFAULT [] [] None [] [] [] [] [].

Definition initial_world (env : Env) : World :=
  snd (bootstrapState env (mkWorld blank 0)).

Definition is_live (r : Reservation.t) : bool :=
  negb (res_status_eqb (Reservation.status r) CANCELLED).

(** The reservation that a transition on [reservationId] would change is not
    a cancelled one. *)
Definition targets_live (rs : list Reservation.t) (reservationId : string) : Prop :=
  forall r, find (has_id reservationId) rs = Some r -> is_live r = true.

(** [careful env w c]: call [c] does not bring a cancelled reservation back.
    Payments and no-shows are recorded on reservations that are not cancelled,
    and the identifier drawn for a manual reservation that is paid in cash at
    once is not the identifier of a cancelled reservation. *)
Definition careful (env : Env) (w : World) (c : Call) : Prop :=
  match c with
  | CallPayWithMercadoPago _ reservationId
  | CallRegisterCashPayment _ reservationId
  | CallMarkNoShowAndRefund50 _ reservationId =>
      targets_live (DB.reservations (store w)) reservationId
  | CallAdminCreateManualReservation by_ userId dateISO time courtId true =>
      forall resId,
        fst (createReservation (store w) by_ dateISO time courtId userId env w) = Ok resId ->
        targets_live (DB.reservations (store w)) resId
  | _ => True
  end.

Inductive reachable (env : Env) : World -> Prop :=
| reachable_init : reachable env (initial_world env)
| reachable_step w c : reachable env w -> reachable env (after env w c).

Inductive reachable_carefully (env : Env) : World -> Prop :=
| carefully_init : reachable_carefully env (initial_world env)
| carefully_step w c :
    reachable_carefully env w -> careful env w c ->
    reachable_carefully env (after env w c).

(** [later env w w']: [w'] is [w] after some calls. *)
Inductive later (env : Env) (w : World) : World -> Prop :=
| later_refl : later env w w
| later_step w' c : later env w w' -> later env w (after env w' c).


(** ** The properties under study *)

Definition count_if {A : Type} (p : A -> bool) (l : list A) : nat :=
  length (filter p l).

(** At most one reservation that is not cancelled per court, day and slot,
    and per user, day and slot. *)
Definition one_per_court_slot (rs : list Reservation.t) : Prop :=
  forall courtId dateISO time,
    (count_if (occupies_court courtId dateISO time) rs <= 1)%nat.

Definition one_per_user_slot (rs : list Reservation.t) : Prop :=
  forall userId dateISO time,
    (count_if (occupies_user userId dateISO time) rs <= 1)%nat.

Definition no_double_booking (st : DB.t) : Prop :=
  one_per_court_slot (DB.reservations st) /\ one_per_user_slot (DB.reservations st).

(** ** Notions used by the properties *)

(** The price that [createReservation] charges to user [u]. *)
Definition price_for (db : DB.t) (u : User.t) : Z :=
  if user_type_eqb (User.userType u) Socio
  then Config.priceSocio (DB.config db) else Config.priceNoSocio (DB.config db).

(** What a successful [createReservation] has checked and written. *)
Inductive created (db : DB.t) (by_ dateISO time courtId : string)
  (forUserId : option string) (w w' : World) (resId : string) : Prop :=
| created_intro (u : User.t) (createdAt updatedAt payId pCreatedAt pUpdatedAt : string) :
    find (fun x => User.id x =? target_user_id forUserId by_)%string
      (DB.users db) = Some u ->
    existsb (occupies_court courtId dateISO time) (DB.reservations db) = false ->
    existsb (occupies_user (User.id u) dateISO time) (DB.reservations db) = false ->
    DB.reservations (store w') =
      push (Reservation.mk resId (User.id u) by_ dateISO time courtId PENDING_PAYMENT
              (price_for db u) createdAt updatedAt None)
        (DB.reservations (store w)) ->
    DB.payments (store w') =
      push (Payment.mk payId resId None PENDING (price_for db u)
              pCreatedAt pUpdatedAt Meta.empty)
        (DB.payments (store w)) ->
    DB.users (store w') = DB.users (store w) ->
    DB.config (store w') = DB.config (store w) ->
    DB.courts (store w') = DB.courts (store w) ->
    DB.blocks (store w') = DB.blocks (store w) ->
    created db by_ dateISO time courtId forUserId w w' resId.

(** [r'] is [r] up to its status, its last update and its cancellation
    reason. *)
Definition keeps_booking (r r' : Reservation.t) : Prop :=
  Reservation.id r' = Reservation.id r
  /\ Reservation.userId r' = Reservation.userId r
  /\ Reservation.createdBy r' = Reservation.createdBy r
  /\ Reservation.dateISO r' = Reservation.dateISO r
  /\ Reservation.time r' = Reservation.time r
  /\ Reservation.courtId r' = Reservation.courtId r
  /\ Reservation.price r' = Reservation.price r
  /\ Reservation.createdAt r' = Reservation.createdAt r.

Definition sets_status (s : ResStatus) (f : Reservation.t -> Reservation.t) : Prop :=
  forall r, keeps_booking r (f r) /\ Reservation.status (f r) = s.

(** The three shapes of a change to the reservations.  With [guarded] set,
    a move to a status other than [CANCELLED] starts from a reservation that
    is not cancelled. *)
Inductive res_effect (guarded : bool) (rs : list Reservation.t)
  : list Reservation.t -> Prop :=
| res_same : res_effect guarded rs rs
| res_created r :
    Reservation.status r = PENDING_PAYMENT ->
    existsb (occupies_court (Reservation.courtId r) (Reservation.dateISO r)
               (Reservation.time r)) rs = false ->
    existsb (occupies_user (Reservation.userId r) (Reservation.dateISO r)
               (Reservation.time r)) rs = false ->
    res_effect guarded rs (push r rs)
| res_moved reservationId s f :
    sets_status s f ->
    (guarded = true -> s = CANCELLED \/ targets_live rs reservationId) ->
    res_effect guarded rs (update_first (has_id reservationId) f rs).

(** [p'] is [p] up to its method, status, last update and details. *)
Definition keeps_amount (p p' : Payment.t) : Prop :=
  Payment.id p' = Payment.id p
  /\ Payment.reservationId p' = Payment.reservationId p
  /\ Payment.amount p' = Payment.amount p
  /\ Payment.createdAt p' = Payment.createdAt p.


(** The status that each of the four transitions writes. *)
Definition target_status (c : Call) : option ResStatus :=
  match c with
  | CallPayWithMercadoPago _ _ | CallRegisterCashPayment _ _ => Some CONFIRMED
  | CallCancelReservation _ _ _ => Some CANCELLED
  | CallMarkNoShowAndRefund50 _ _ => Some NO_SHOW
  | _ => None
  end.


(** A call that is refused: it throws, and leaves reservations and payments
    as they were. *)
Definition refused {A : Type} (m : M A) (env : Env) (w : World) : Prop :=
  (exists e, fst (m env w) = Throw e)
  /\ DB.reservations (store (snd (m env w))) = DB.reservations (store w)
  /\ DB.payments (store (snd (m env w))) = DB.payments (store w).

(** The pipeline as the specification words it: an ordered list of checks,
    each with the error it reports; the first check that fails decides.
    [today] and [target] are calendar days, [target] is [None] when the date
    does not parse. *)
Definition spec_checks (db : DB.t) (today : Z) (target : option Z)
  (by_ dateISO time courtId : string) (forUserId : option string)
  : list (bool * JsError) :=
  match find (fun x => User.id x =? target_user_id forUserId by_)%string
          (DB.users db) with
  | None => [ (true, InvalidUser) ]
  | Some u =>
      [ (Config.requireEmailValidation (DB.config db) && negb (User.isEmailValidated u),
         AccountNotValidated_email);
        (Config.requirePhoneValidation (DB.config db) && negb (User.isPhoneValidated u),
         AccountNotValidated_phone);
        (match target with Some t => (t <? today)%Z | None => false end, PastDate);
        (match target with Some t => (today + 7 <? t)%Z | None => false end, TooFarAhead);
        (match find (fun x => Court.id x =? courtId)%string (DB.courts db) with
         | Some c => negb (Court.isActive c)
         | None => true
         end, ResourceUnavailable);
        (existsb (fun b => (Block.courtId b =? courtId) && (Block.dateISO b =? dateISO)
                           && (Block.time b =? time))%string (DB.blocks db),
         SlotBlocked);
        (existsb (fun r => (Reservation.courtId r =? courtId)
                           && (Reservation.dateISO r =? dateISO)
                           && (Reservation.time r =? time)
                           && negb (res_status_eqb (Reservation.status r) CANCELLED))%string
           (DB.reservations db),
         SlotTaken);
        (existsb (fun r => (Reservation.userId r =? User.id u)
                           && (Reservation.dateISO r =? dateISO)
                           && (Reservation.time r =? time)
                           && negb (res_status_eqb (Reservation.status r) CANCELLED))%string
           (DB.reservations db),
         UserDoubleBooked) ]
  end.

Fixpoint first_failure (checks : list (bool * JsError)) : option JsError :=
  match checks with
  | [] => None
  | (failed, e) :: rest => if failed then Some e else first_failure rest
  end.

(** The calendar day of a date. *)
Definition day_of (d : JsDate) : option Z := option_map fst d.





(** The three input checks that [register] makes before the password. *)
Definition register_inputs_ok (email phone dni : string) : bool :=
  negb (is_empty (trim dni) || (String.length (trim dni) <? 6)%nat)
  && includes_char (toLowerCase (trim email)) "@"
  && negb (is_empty (trim phone)).


(** The duplicate test of [register]. *)
Definition same_email_or_dni (email dni : string) (u : User.t) : bool :=
  ((User.email u =? email) || (User.dni u =? dni))%string.

(** ** A sample environment and sample runs

    Identifiers are numbered by the tick at which they are drawn; the clock
    stands still at noon of day 100, and the days around it are the only
    dates the parser knows. *)

Definition hex_of_nat (n : nat) : string :=
  HexadecimalString.NilZero.string_of_uint (Nat.to_hex_uint n).

Definition sample_parse (s : string) : JsDate :=
  if s =? "2026-01-14T00:00:00" then Some (99%Z, 0%Z)
  else if s =? "2026-01-15T00:00:00" then Some (100%Z, 0%Z)
  else if s =? "2026-01-22T00:00:00" then Some (107%Z, 0%Z)
  else if s =? "2026-01-23T00:00:00" then Some (108%Z, 0%Z)
  else None.

Definition sample_env : Env :=
  {| random_hex := hex_of_nat;
     now_hex := fun _ => "19bc0a1f000";
     now_iso := fun _ => "2026-01-15T15:00:00.000Z";
     now_date := fun _ => (100%Z, 43200000%Z);
     parse_date := sample_parse;
     JSON_stringify := fun _ => "{}" |}.

Definition sample_admin : string := "usr_0_19bc0a1f000".

(** The world after the administrator has booked court c1, unpaid. *)
Definition pending_world : World :=
  after sample_env (initial_world sample_env)
    (CallCreateReservation sample_admin "2026-01-15" "08:00" "c1" None).

(** The world after the reservation of [pending_world] has been paid. *)
Definition confirmed_world : World :=
  after sample_env pending_world
    (CallPayWithMercadoPago sample_admin "res_5_19bc0a1f000").

(** After these calls the administrator's reservation is cancelled. *)
Definition cancel_calls : list Call :=
  [ CallCreateReservation sample_admin "2026-01-15" "08:00" "c1" None;
    CallCancelReservation sample_admin "res_5_19bc0a1f000" None ].

(** The world after [cancel_calls]. *)
Definition cancelled_world : World :=
  after_all sample_env (initial_world sample_env) cancel_calls.

(** After these calls the administrator's reservation is a no-show. *)
Definition no_show_calls : list Call :=
  [ CallCreateReservation sample_admin "2026-01-15" "08:00" "c1" None;
    CallPayWithMercadoPago sample_admin "res_5_19bc0a1f000";
    CallMarkNoShowAndRefund50 sample_admin "res_5_19bc0a1f000" ].

(** The administrator books court c1, cancels, books the same slot again and
    then pays the cancelled reservation. *)
Definition revival_calls : list Call :=
  [ CallCreateReservation sample_admin "2026-01-15" "08:00" "c1" None;
    CallCancelReservation sample_admin "res_5_19bc0a1f000" None;
    CallCreateReservation sample_admin "2026-01-15" "08:00" "c1" None;
    CallPayWithMercadoPago sample_admin "res_5_19bc0a1f000" ].

(** The prices are changed and the reservation of [pending_world] is paid. *)
Definition repriced_world : World :=
  after_all sample_env pending_world
    [ CallSetConfig sample_admin
        (ConfigPatch.mk None None None (Some 500%Z) (Some 9000%Z) None);
      CallPayWithMercadoPago sample_admin "res_5_19bc0a1f000" ].

(** The world after a second user has registered with the telephone of the
    administrator. *)
Definition shared_phone_world : World :=
  after sample_env (initial_world sample_env)
    (CallRegister "ana@edlp.com" "11-0000-0000" "30111222" "Abc123!").


(** ** Further parts of the application *)

(** [clamp], which bounds the prices typed in the configuration screen. *)
Definition clamp (n a b : Z) : Z := Z.max a (Z.min b n).

(** The flags of the registration form ([AuthGate]); the button that calls
    [register] is disabled unless [canRegister] holds. *)
Definition passwordValid (password : string) : bool := rx_test passRegex password.

Definition emailValid (email : string) : bool := includes_char email "@".

Definition dniValid (dni : string) : bool := (6 <=? String.length (trim dni))%nat.

Definition phoneValid (phone : string) : bool := (0 <? String.length (trim phone))%nat.

Definition canRegister (email phone dni password : string) (busy : bool) : bool :=
  passwordValid password && emailValid email && dniValid dni && phoneValid phone
  && negb busy.

(** The three buttons of [AdminReservationActions]. *)
Inductive AdminAction : Type := RegistrarEfectivo | Cancelar | NoShowReintegro.

(** The [disabled] attribute of each button, for the reservation shown. *)
Definition admin_action_disabled (reservation : Reservation.t) (a : AdminAction) : bool :=
  match a with
  | RegistrarEfectivo =>
      negb (res_status_eqb (Reservation.status reservation) PENDING_PAYMENT)
  | Cancelar => res_status_eqb (Reservation.status reservation) CANCELLED
  | NoShowReintegro => negb (res_status_eqb (Reservation.status reservation) CONFIRMED)
  end.

(** The call behind each button. *)
Definition admin_action_call (admin reservationId : string) (a : AdminAction) : Call :=
  match a with
  | RegistrarEfectivo => CallRegisterCashPayment admin reservationId
  | Cancelar => CallCancelReservation admin reservationId (Some "Cancelación admin")
  | NoShowReintegro => CallMarkNoShowAndRefund50 admin reservationId
  end.

(** The component renders nothing when the reservation is not found; a
    button can be pressed when it is rendered and not disabled. *)
Definition admin_action_enabled (db : DB.t) (reservationId : string) (a : AdminAction)
  : bool :=
  match find (has_id reservationId) (DB.reservations db) with
  | None => false
  | Some reservation => negb (admin_action_disabled reservation a)
  end.

(** The availability that [BookingView] shows for a date and a slot. *)
Inductive CourtStatus : Type := Inactiva | Mantenimiento | Ocupada | Disponible.

(** [new Map()], [set] and [get] on string keys: [set] replaces the value of
    a key that is present and appends a new key. *)
Fixpoint map_set {V : Type} (k : string) (v : V) (m : list (string * V))
  : list (string * V) :=
  match m with
  | [] => [(k, v)]
  | (k', v') :: m' => if k' =? k then (k, v) :: m' else (k', v') :: map_set k v m'
  end.

Definition map_get {V : Type} (k : string) (m : list (string * V)) : option V :=
  option_map snd (find (fun kv => fst kv =? k) m).

Definition availability_entry (db : DB.t) (dateISO time : string) (c : Court.t)
  : bool * CourtStatus :=
  let res :=
    filter (fun r => (Reservation.dateISO r =? dateISO) && (Reservation.time r =? time)
                     && negb (res_status_eqb (Reservation.status r) CANCELLED))
      (DB.reservations db) in
  let blocks :=
    filter (fun b => (Block.dateISO b =? dateISO) && (Block.time b =? time))
      (DB.blocks db) in
  let isBlocked := existsb (fun b => Block.courtId b =? Court.id c) blocks in
  let isReserved := existsb (fun r => Reservation.courtId r =? Court.id c) res in
  (Court.isActive c,
   if negb (Court.isActive c) then Inactiva
   else if isBlocked then Mantenimiento
   else if isReserved then Ocupada
   else Disponible).

Definition availability (db : DB.t) (dateISO time : string)
  : list (string * (bool * CourtStatus)) :=
  fold_left (fun byCourt c => map_set (Court.id c) (availability_entry db dateISO time c)
                                byCourt)
    (DB.courts db) [].

(** ** Further notions used by the properties *)

(** [new_log] is [old_log] with entries put in front. *)
Definition extends_log {A : Type} (new_log old_log : list A) : Prop :=
  exists front, new_log = (front ++ old_log)%list.

(** The statuses that a reservation and its payment can have together. *)
Definition status_pair_ok (s : ResStatus) (ps : PayStatus) : bool :=
  match s, ps with
  | PENDING_PAYMENT, PENDING => true
  | CONFIRMED, APPROVED => true
  | NO_SHOW, REFUNDED_PARTIAL => true
  | CANCELLED, REJECTED => false
  | CANCELLED, _ => true
  | _, _ => false
  end.

(** The refund record of a payment is there exactly when the payment is
    [REFUNDED_PARTIAL], and then holds half of the amount. *)
Definition refund_ok (p : Payment.t) : Prop :=
  match Payment.status p, Meta.refund (Payment.meta p) with
  | REFUNDED_PARTIAL, Some refund =>
      Meta.percent refund = 50%Z
      /\ Meta.amount refund = Math_round_half (Payment.amount p)
  | REFUNDED_PARTIAL, None => False
  | _, Some _ => False
  | _, None => True
  end.

(** The method of a payment is unset while it is [PENDING] and set once it
    is [APPROVED]. *)
Definition method_ok (p : Payment.t) : Prop :=
  match Payment.status p with
  | PENDING => Payment.method p = None
  | APPROVED => Payment.method p <> None
  | _ => True
  end.

(** A reservation and the payment stored at the same position. *)
Definition coupled (r : Reservation.t) (p : Payment.t) : Prop :=
  Payment.reservationId p = Reservation.id r
  /\ Payment.amount p = Reservation.price r
  /\ status_pair_ok (Reservation.status r) (Payment.status p) = true
  /\ method_ok p /\ refund_ok p.

(** [u'] is [u] up to its two validation flags. *)
Definition keeps_identity (u u' : User.t) : Prop :=
  User.id u' = User.id u /\ User.role u' = User.role u
  /\ User.email u' = User.email u /\ User.phone u' = User.phone u
  /\ User.dni u' = User.dni u /\ User.userType u' = User.userType u
  /\ User.createdAt u' = User.createdAt u
  /\ User.passwordHash u' = User.passwordHash u.

(** The checks of [register], in the order of the source. *)
Definition register_checks (db : DB.t) (email phone dni password : string)
  : list (bool * JsError) :=
  [ (is_empty (trim dni) || (String.length (trim dni) <? 6)%nat, InvalidInput_dni);
    (negb (includes_char (toLowerCase (trim email)) "@"), InvalidInput_email);
    (is_empty (trim phone), InvalidInput_phone);
    (negb (rx_test passRegex password), WeakPassword);
    (existsb (same_email_or_dni (toLowerCase (trim email)) (trim dni)) (DB.users db),
     DuplicateUser) ].

(** The user that a successful [register] stores. *)
Definition registered_user (id email phone dni password createdAt : string) : User.t :=
  User.mk id RoleUser (toLowerCase (trim email)) (trim phone) (trim dni)
    (if validateSocioByDNI (trim dni) then Socio else NoSocio)
    createdAt password false false.

(** The life cycle that the screens allow. *)
Definition allowed_transition (from to : ResStatus) : bool :=
  match from, to with
  | PENDING_PAYMENT, CONFIRMED | PENDING_PAYMENT, CANCELLED
  | CONFIRMED, CANCELLED | CONFIRMED, NO_SHOW | NO_SHOW, CANCELLED => true
  | _, _ => false
  end.

(** * Properties *)

Open Scope list_scope.

(** ** Arrays *)

Section ArrayFacts.
Context {A : Type}.
Implicit Types (p q : A -> bool) (f : A -> A) (l : list A).

Lemma count_if_app p l1 l2 :
  count_if p (l1 ++ l2) = count_if p l1 + count_if p l2.
Proof. unfold count_if. now rewrite filter_app, length_app. Qed.

Lemma count_if_cons p x l :
  count_if p (x :: l) = (if p x then 1 else 0) + count_if p l.
Proof. unfold count_if. simpl. now destruct (p x). Qed.

Lemma count_if_push p x l :
  count_if p (push x l) = count_if p l + (if p x then 1 else 0).
Proof.
  unfold push. rewrite count_if_app, count_if_cons. unfold count_if. simpl. lia.
Qed.

Lemma count_if_absent p l : existsb p l = false -> count_if p l = 0.
Proof.
  induction l as [|x l IH]; simpl; intros H; [reflexivity|].
  apply orb_false_iff in H as [Hx Hl]. rewrite count_if_cons, Hx. auto.
Qed.

Lemma update_first_absent q f l : find q l = None -> update_first q f l = l.
Proof.
  induction l as [|x l IH]; simpl; [reflexivity|].
  destruct (q x); [discriminate|]. intros H. now rewrite IH.
Qed.

Lemma update_first_found q f l x :
  find q l = Some x ->
  exists l1 l2, l = l1 ++ x :: l2 /\ update_first q f l = l1 ++ f x :: l2.
Proof.
  induction l as [|y l IH]; simpl; [discriminate|].
  destruct (q y) eqn:Hy.
  - intros [= ->]. now exists [], l.
  - intros H. destruct (IH H) as (l1 & l2 & -> & E).
    exists (y :: l1), l2. simpl. now rewrite E.
Qed.

(** A position holds what it held, or the image of the first match. *)
Lemma nth_error_update_first q f l i x :
  nth_error l i = Some x ->
  nth_error (update_first q f l) i = Some x
  \/ (find q l = Some x /\ nth_error (update_first q f l) i = Some (f x)).
Proof.
  revert i. induction l as [|y l IH]; intros [|i]; simpl; try discriminate.
  - intros [= ->]. destruct (q x); auto.
  - intros H. destruct (q y); simpl; auto.
Qed.

Lemma count_if_update_first_le p q f l :
  (forall x, find q l = Some x -> p (f x) = true -> p x = true) ->
  count_if p (update_first q f l) <= count_if p l.
Proof.
  intros H. destruct (find q l) as [x|] eqn:F.
  - destruct (update_first_found q f l x F) as (l1 & l2 & -> & ->).
    rewrite !count_if_app, !count_if_cons.
    specialize (H x eq_refl). destruct (p (f x)); [rewrite H by reflexivity|]; lia.
  - now rewrite update_first_absent.
Qed.

Lemma find_push_old q x l y : find q l = Some y -> find q (push x l) = Some y.
Proof.
  unfold push. induction l as [|z l IH]; simpl; [discriminate|].
  destruct (q z); auto.
Qed.

Lemma find_push_new q x l :
  find q l = None -> find q (push x l) = if q x then Some x else None.
Proof.
  unfold push. induction l as [|z l IH]; simpl; [reflexivity|].
  destruct (q z); [discriminate|auto].
Qed.

Lemma nth_error_push_old x l i y :
  nth_error l i = Some y -> nth_error (push x l) i = Some y.
Proof.
  intros H. unfold push. rewrite nth_error_app1; [assumption|].
  apply nth_error_Some. congruence.
Qed.
End ArrayFacts.

(** ** Running the API *)

Ltac api_unfold :=
  unfold after, perform, ignore, setConfig, register, loginEmailPassword,
    validateAccount, setCourtActive, addBlock, removeBlock, createReservation,
    payWithMercadoPago, registerCashPayment, cancelReservation,
    markNoShowAndRefund50, adminCreateManualReservation,
    commit, audit, notify, throw_if, bind, get_store, modify_store, ret, throw,
    uid, nowISOTime, new_Date, read_env, ask in *.

Ltac api_case :=
  match goal with
  | |- context [match find ?p ?l with _ => _ end] =>
      let F := fresh "F" in destruct (find p l) eqn:F
  | |- context [match owner_email ?db ?r with _ => _ end] =>
      destruct (owner_email db r)
  | |- context [if ?b then _ else _] =>
      let B := fresh "B" in destruct b eqn:B
  end; cbn.

Ltac api_run := api_unfold; cbn; repeat api_case.

(** Concrete runs: every call of the list is checked to be careful. *)
Ltac live_target :=
  let r := fresh "r" in let F := fresh "F" in
  intros r F; vm_compute in F;
  first [discriminate F | injection F as <-; reflexivity].

Ltac careful_calls :=
  cbn [after_all];
  repeat (apply carefully_step; [|first [exact I | live_target]]);
  apply carefully_init.


Lemma createReservation_cases db by_ dateISO time courtId forUserId env w :
  (exists e w', createReservation db by_ dateISO time courtId forUserId env w = (Throw e, w')
                /\ store w' = store w)
  \/ (exists resId w',
        createReservation db by_ dateISO time courtId forUserId env w = (Ok resId, w')
        /\ created db by_ dateISO time courtId forUserId w w' resId).
Proof.
  api_run; try (left; eexists _, _; split; [reflexivity|reflexivity]).
  all: right; eexists _, _; split; [reflexivity|].
  all: econstructor; unfold price_for; cbn;
    repeat match goal with H : user_type_eqb _ _ = _ |- _ => rewrite H end;
    solve [eauto | reflexivity].
Qed.

(** ** What a call does to the reservations *)

Lemma sets_status_intro s (updatedAt : string) (reason : Reservation.t -> option string) :
  sets_status s (fun r => set_res_status s updatedAt (reason r) r).
Proof. intros r. unfold keeps_booking. cbn. tauto. Qed.

Lemma created_res_effect guarded by_ dateISO time courtId forUserId w w' resId :
  created (store w) by_ dateISO time courtId forUserId w w' resId ->
  res_effect guarded (DB.reservations (store w)) (DB.reservations (store w')).
Proof.
  intros [u ? ? ? ? ? _ Hc Hu -> _ _ _ _ _]. now apply res_created.
Qed.

Lemma targets_live_push rs r reservationId :
  targets_live rs reservationId -> Reservation.status r = PENDING_PAYMENT ->
  targets_live (push r rs) reservationId.
Proof.
  intros H Hr x. destruct (find (has_id reservationId) rs) as [y|] eqn:F.
  - rewrite (find_push_old _ _ _ _ F). intros [= <-]. now apply H.
  - rewrite (find_push_new _ _ _ F). destruct (has_id reservationId r); [|discriminate].
    intros [= <-]. unfold is_live. now rewrite Hr.
Qed.

Lemma registerCashPayment_res_effect guarded db by_ reservationId env w :
  (guarded = true -> targets_live (DB.reservations (store w)) reservationId) ->
  res_effect guarded (DB.reservations (store w))
    (DB.reservations (store (snd (registerCashPayment db by_ reservationId env w)))).
Proof.
  intros G. api_run; try apply res_same.
  all: apply res_moved with (s := CONFIRMED)
         (f := fun r => set_res_status CONFIRMED _ (Reservation.cancelReason r) r);
       [apply sets_status_intro | auto].
Qed.

Lemma perform_res_effect guarded env w c :
  (guarded = true -> careful env w c) ->
  exists rs,
    res_effect guarded (DB.reservations (store w)) rs
    /\ res_effect guarded rs (DB.reservations (store (after env w c))).
Proof.
  intros G. destruct c.
  13: {
    unfold after, perform, ignore, adminCreateManualReservation, bind.
    destruct (createReservation_cases (store w) by_ dateISO time courtId userId env w)
      as [(e & w' & E & S)|(resId & w' & E & C)]; rewrite E; cbn.
    - exists (DB.reservations (store w)). rewrite S. split; apply res_same.
    - exists (DB.reservations (store w')). split.
      + eapply created_res_effect; eauto.
      + destruct markPaidCash.
        * pose proof (registerCashPayment_res_effect guarded (store w) by_ resId env w') as R.
          destruct (registerCashPayment (store w) by_ resId env w') as [[[]|e] w''];
            cbn in *; apply R; intros Hg.
          all: specialize (G Hg resId); rewrite E in G; specialize (G eq_refl).
          all: destruct C as [u ? ? ? ? ? _ _ _ -> _ _ _ _ _].
          all: now apply targets_live_push.
        * cbn. apply res_same. }
  8: {
    unfold after, perform, ignore, bind.
    destruct (createReservation_cases (store w) by_ dateISO time courtId forUserId env w)
      as [(e & w' & E & S)|(resId & w' & E & C)]; rewrite E; cbn.
    - exists (DB.reservations (store w)). rewrite S. split; apply res_same.
    - exists (DB.reservations (store w)). split; [apply res_same|].
      eapply created_res_effect; eauto. }
  all: exists (DB.reservations (store w)); split; [apply res_same|].
  all: cbn in G; api_run; try apply res_same.
  all: match goal with
       | |- res_effect _ _ (update_first _ (set_res_status CANCELLED ?t ?r) _) =>
           apply res_moved with (s := CANCELLED) (f := set_res_status CANCELLED t r);
           [apply (sets_status_intro CANCELLED t (fun _ => r)) | auto]
       | |- res_effect _ _ (update_first _ (fun r => set_res_status ?target ?t _ r) _) =>
           apply res_moved with (s := target)
             (f := fun r => set_res_status target t (Reservation.cancelReason r) r);
           [apply sets_status_intro | auto]
       end.
Qed.

(** ** One reservation per court and slot, one per user and slot *)

Lemma occupies_court_moved courtId dateISO time r r' :
  keeps_booking r r' -> is_live r = true ->
  occupies_court courtId dateISO time r' = true ->
  occupies_court courtId dateISO time r = true.
Proof.
  unfold occupies_court, is_live. intros (_ & _ & _ & -> & -> & -> & _) ->.
  rewrite !andb_true_iff. tauto.
Qed.

Lemma occupies_user_moved userId dateISO time r r' :
  keeps_booking r r' -> is_live r = true ->
  occupies_user userId dateISO time r' = true ->
  occupies_user userId dateISO time r = true.
Proof.
  unfold occupies_user, is_live. intros (_ & -> & _ & -> & -> & _) ->.
  rewrite !andb_true_iff. tauto.
Qed.

Lemma occupies_court_live courtId dateISO time r :
  occupies_court courtId dateISO time r = true ->
  Reservation.status r <> CANCELLED.
Proof.
  unfold occupies_court. rewrite !andb_true_iff. intros (_ & H) E.
  rewrite E in H. discriminate.
Qed.

Lemma occupies_user_live userId dateISO time r :
  occupies_user userId dateISO time r = true ->
  Reservation.status r <> CANCELLED.
Proof.
  unfold occupies_user. rewrite !andb_true_iff. intros (_ & H) E.
  rewrite E in H. discriminate.
Qed.

Lemma occupies_court_slot courtId dateISO time r :
  occupies_court courtId dateISO time r = true ->
  Reservation.courtId r = courtId /\ Reservation.dateISO r = dateISO
  /\ Reservation.time r = time.
Proof.
  unfold occupies_court. rewrite !andb_true_iff, !String.eqb_eq. tauto.
Qed.

Lemma occupies_user_slot userId dateISO time r :
  occupies_user userId dateISO time r = true ->
  Reservation.userId r = userId /\ Reservation.dateISO r = dateISO
  /\ Reservation.time r = time.
Proof.
  unfold occupies_user. rewrite !andb_true_iff, !String.eqb_eq. tauto.
Qed.

Lemma res_effect_court rs rs' :
  res_effect true rs rs' -> one_per_court_slot rs -> one_per_court_slot rs'.
Proof.
  intros [|r Hs Hc Hu|reservationId s f Hf G] I courtId dateISO time.
  - apply I.
  - rewrite count_if_push.
    destruct (occupies_court courtId dateISO time r) eqn:O.
    + apply occupies_court_slot in O as (<- & <- & <-).
      rewrite (count_if_absent _ _ Hc). lia.
    + specialize (I courtId dateISO time). lia.
  - etransitivity; [apply count_if_update_first_le | apply I].
    intros x F O. destruct (Hf x) as [K S].
    destruct (G eq_refl) as [->|L].
    + apply occupies_court_live in O. congruence.
    + eapply occupies_court_moved; eauto.
Qed.

Lemma res_effect_user rs rs' :
  res_effect true rs rs' -> one_per_user_slot rs -> one_per_user_slot rs'.
Proof.
  intros [|r Hs Hc Hu|reservationId s f Hf G] I userId dateISO time.
  - apply I.
  - rewrite count_if_push.
    destruct (occupies_user userId dateISO time r) eqn:O.
    + apply occupies_user_slot in O as (<- & <- & <-).
      rewrite (count_if_absent _ _ Hu). lia.
    + specialize (I userId dateISO time). lia.
  - etransitivity; [apply count_if_update_first_le | apply I].
    intros x F O. destruct (Hf x) as [K S].
    destruct (G eq_refl) as [->|L].
    + apply occupies_user_live in O. congruence.
    + eapply occupies_user_moved; eauto.
Qed.

Lemma careful_call_no_double_booking env w c :
  careful env w c -> no_double_booking (store w) ->
  no_double_booking (store (after env w c)).
Proof.
  intros G [Ic Iu].
  destruct (perform_res_effect true env w c (fun _ => G)) as (rs & E1 & E2).
  split; eauto using res_effect_court, res_effect_user.
Qed.

Lemma reachable_after_all env w cs :
  reachable env w -> reachable env (after_all env w cs).
Proof.
  revert w. induction cs as [|c cs IH]; intros w R; cbn; [assumption|].
  apply IH. now constructor.
Qed.

(** C1, as stated, fails: paying a cancelled reservation brings it back to
    [CONFIRMED] next to the reservation that took its slot, so a reachable
    store holds two live reservations of one court, day and slot (and of one
    user, day and slot). *)
Lemma double_booking_reachable :
  ~ (forall env w, reachable env w -> no_double_booking (store w)).
Proof.
  intros H.
  destruct (H sample_env (after_all sample_env (initial_world sample_env) revival_calls))
    as [Hc _].
  - apply reachable_after_all. constructor.
  - specialize (Hc "c1" "2026-01-15" "08:00"%string). vm_compute in Hc. lia.
Qed.

(** C1 (amended): in every state reached from the seed state by calls that
    never record a payment or a no-show on a cancelled reservation, there is
    at most one reservation that is not cancelled per (court, date, slot) and
    at most one per (user, date, slot). *)
Theorem no_double_booking_when_careful env w :
  reachable_carefully env w -> no_double_booking (store w).
Proof.
  induction 1 as [|w c R IH G].
  - split; intros ? ? ?; cbn; lia.
  - now apply careful_call_no_double_booking.
Qed.

Lemma no_double_booking_when_careful_witness :
  no_double_booking (store confirmed_world).
Proof.
  apply (no_double_booking_when_careful sample_env).
  unfold confirmed_world, pending_world. careful_calls.
Defined.

(** ** The life cycle of a reservation *)

Lemma res_effect_position guarded rs rs' i r :
  res_effect guarded rs rs' -> nth_error rs i = Some r ->
  exists r', nth_error rs' i = Some r' /\ keeps_booking r r'
    /\ (guarded = true -> Reservation.status r = CANCELLED ->
        Reservation.status r' = CANCELLED).
Proof.
  assert (K : keeps_booking r r) by (unfold keeps_booking; tauto).
  intros [|x _ _ _|reservationId s f Hf G] N.
  - eauto.
  - exists r. eauto using nth_error_push_old.
  - destruct (nth_error_update_first (has_id reservationId) f rs i r N) as [E|[F E]].
    + eauto.
    + exists (f r). destruct (Hf r) as [Kf Sf]. repeat split; try apply Kf; auto.
      intros Hg C. destruct (G Hg) as [->|L]; [assumption|].
      apply L in F. unfold is_live in F. rewrite C in F. discriminate.
Qed.

Lemma keeps_booking_trans r1 r2 r3 :
  keeps_booking r1 r2 -> keeps_booking r2 r3 -> keeps_booking r1 r3.
Proof. unfold keeps_booking. intuition congruence. Qed.

Lemma call_position guarded env w c i r :
  (guarded = true -> careful env w c) ->
  nth_error (DB.reservations (store w)) i = Some r ->
  exists r', nth_error (DB.reservations (store (after env w c))) i = Some r'
    /\ keeps_booking r r'
    /\ (guarded = true -> Reservation.status r = CANCELLED ->
        Reservation.status r' = CANCELLED).
Proof.
  intros G N. destruct (perform_res_effect guarded env w c G) as (rs & E1 & E2).
  destruct (res_effect_position _ _ _ _ _ E1 N) as (r1 & N1 & K1 & C1).
  destruct (res_effect_position _ _ _ _ _ E2 N1) as (r2 & N2 & K2 & C2).
  exists r2. split; [assumption|]. split; [eapply keeps_booking_trans; eauto|].
  auto.
Qed.







(** ** Payment and no-show *)

Lemma find_update_first {A : Type} (q : A -> bool) (f : A -> A) l x :
  find q l = Some x -> q (f x) = true -> find q (update_first q f l) = Some (f x).
Proof.
  induction l as [|y l IH]; simpl; [discriminate|].
  destruct (q y) eqn:Hy.
  - intros [= ->] Hf. simpl. now rewrite Hf.
  - intros F Hf. simpl. rewrite Hy. auto.
Qed.

(** C3, as stated, fails: paying the cancelled reservation of [cancel_calls]
    is not refused, it confirms the reservation. *)
Lemma pay_not_refused :
  ~ (forall env w by_ reservationId r,
       find (has_id reservationId) (DB.reservations (store w)) = Some r ->
       Reservation.status r <> PENDING_PAYMENT ->
       refused (payWithMercadoPago (store w) by_ reservationId) env w).
Proof.
  intros H.
  destruct (find (has_id "res_5_19bc0a1f000") (DB.reservations (store cancelled_world)))
    as [r|] eqn:F; [|vm_compute in F; discriminate F].
  destruct (H sample_env cancelled_world sample_admin "res_5_19bc0a1f000"%string r F)
    as [[e E] _].
  - vm_compute in F. injection F as <-. discriminate.
  - vm_compute in E. discriminate E.
Qed.

(** C3 (amended): [payWithMercadoPago] never fails and never reads the status
    of the reservation: it returns [true]; when the reservation and its
    payment exist, the reservation becomes [CONFIRMED] and the payment
    [APPROVED] by Mercado Pago, whatever the status was, with the booking and
    the amount untouched; when either is missing, reservations and payments
    are left as they were. *)
Theorem payWithMercadoPago_always_confirms db env w by_ reservationId :
  let out := payWithMercadoPago db by_ reservationId env w in
  fst out = Ok true
  /\ (forall r p,
        find (has_id reservationId) (DB.reservations (store w)) = Some r ->
        find (pays_for reservationId) (DB.payments (store w)) = Some p ->
        exists r' p',
          find (has_id reservationId) (DB.reservations (store (snd out))) = Some r'
          /\ keeps_booking r r' /\ Reservation.status r' = CONFIRMED
          /\ find (pays_for reservationId) (DB.payments (store (snd out))) = Some p'
          /\ keeps_amount p p' /\ Payment.status p' = APPROVED
          /\ Payment.method p' = Some MercadoPago)
  /\ (find (has_id reservationId) (DB.reservations (store w)) = None
      \/ find (pays_for reservationId) (DB.payments (store w)) = None ->
      DB.reservations (store (snd out)) = DB.reservations (store w)
      /\ DB.payments (store (snd out)) = DB.payments (store w)).
Proof.
  assert (Q : forall r, find (has_id reservationId) (DB.reservations (store w)) = Some r ->
                        has_id reservationId r = true)
    by (intros r F; now apply find_some in F).
  assert (P : forall p, find (pays_for reservationId) (DB.payments (store w)) = Some p ->
                        pays_for reservationId p = true)
    by (intros p F; now apply find_some in F).
  api_run.
  all: split; [reflexivity|]; split.
  all: try (intros r p [=] [=]; fail).
  all: try (intros [|]; discriminate).
  all: try (intros; split; reflexivity).
  all: intros r p [= ->] [= ->]; eexists _, _.
  all: split; [apply find_update_first; [eassumption|exact (Q r eq_refl)]|].
  all: split; [unfold keeps_booking; cbn; tauto|]; split; [reflexivity|].
  all: split; [apply find_update_first; [eassumption|exact (P p eq_refl)]|].
  all: unfold keeps_amount; cbn; tauto.
Qed.

Lemma payWithMercadoPago_always_confirms_witness :
  let out := payWithMercadoPago (store cancelled_world) sample_admin
               "res_5_19bc0a1f000" sample_env cancelled_world in
  fst out = Ok true
  /\ exists r' p',
       find (has_id "res_5_19bc0a1f000") (DB.reservations (store (snd out))) = Some r'
       /\ Reservation.status r' = CONFIRMED
       /\ find (pays_for "res_5_19bc0a1f000") (DB.payments (store (snd out))) = Some p'
       /\ Payment.status p' = APPROVED.
Proof.
  destruct (payWithMercadoPago_always_confirms (store cancelled_world) sample_env
              cancelled_world sample_admin "res_5_19bc0a1f000"%string) as (E & H & _).
  split; [exact E|].
  destruct (find (has_id "res_5_19bc0a1f000") (DB.reservations (store cancelled_world)))
    as [r|] eqn:F; [|vm_compute in F; discriminate F].
  destruct (find (pays_for "res_5_19bc0a1f000") (DB.payments (store cancelled_world)))
    as [p|] eqn:G; [|vm_compute in G; discriminate G].
  destruct (H r p eq_refl eq_refl) as (r' & p' & Fr & _ & Sr & Fp & _ & Sp & _).
  exists r', p'. repeat split; assumption.
Defined.

(** The integer nearest to the half, the upper one on a tie. *)
Lemma Math_round_half_nearest a :
  (0 <= 2 * Math_round_half a - a <= 1)%Z.
Proof.
  unfold Math_round_half.
  pose proof (Z.div_mod (a + 1) 2 ltac:(lia)).
  pose proof (Z.mod_pos_bound (a + 1) 2 ltac:(lia)). lia.
Qed.

(** C4, as stated, fails: a no-show recorded on a reservation that is still
    [PENDING_PAYMENT] is not refused. *)
Lemma no_show_not_refused :
  ~ (forall env w by_ reservationId r,
       find (has_id reservationId) (DB.reservations (store w)) = Some r ->
       Reservation.status r <> CONFIRMED ->
       refused (markNoShowAndRefund50 (store w) by_ reservationId) env w).
Proof.
  intros H.
  destruct (find (has_id "res_5_19bc0a1f000") (DB.reservations (store pending_world)))
    as [r|] eqn:F; [|vm_compute in F; discriminate F].
  destruct (H sample_env pending_world sample_admin "res_5_19bc0a1f000"%string r F)
    as [[e E] _].
  - vm_compute in F. injection F as <-. discriminate.
  - vm_compute in E. discriminate E.
Qed.

(** C4 (amended): [markNoShowAndRefund50] never fails and never reads the
    status of the reservation, so it succeeds again when it is repeated; when
    the reservation and its payment exist, the reservation becomes [NO_SHOW]
    and the payment [REFUNDED_PARTIAL] with a recorded refund of 50 percent
    whose amount is [Math.round(0.5 * payment.amount)], the integer nearest to
    the half of the amount; when either is missing, reservations and payments
    are left as they were. *)
Theorem markNoShowAndRefund50_always_refunds db env w by_ reservationId :
  let out := markNoShowAndRefund50 db by_ reservationId env w in
  fst out = Ok tt
  /\ (forall r p,
        find (has_id reservationId) (DB.reservations (store w)) = Some r ->
        find (pays_for reservationId) (DB.payments (store w)) = Some p ->
        exists r' p' refund,
          find (has_id reservationId) (DB.reservations (store (snd out))) = Some r'
          /\ keeps_booking r r' /\ Reservation.status r' = NO_SHOW
          /\ find (pays_for reservationId) (DB.payments (store (snd out))) = Some p'
          /\ keeps_amount p p' /\ Payment.status p' = REFUNDED_PARTIAL
          /\ Meta.refund (Payment.meta p') = Some refund
          /\ Meta.percent refund = 50%Z
          /\ Meta.amount refund = Math_round_half (Payment.amount p)
          /\ (0 <= 2 * Meta.amount refund - Payment.amount p <= 1)%Z)
  /\ (find (has_id reservationId) (DB.reservations (store w)) = None
      \/ find (pays_for reservationId) (DB.payments (store w)) = None ->
      DB.reservations (store (snd out)) = DB.reservations (store w)
      /\ DB.payments (store (snd out)) = DB.payments (store w)).
Proof.
  assert (Q : forall r, find (has_id reservationId) (DB.reservations (store w)) = Some r ->
                        has_id reservationId r = true)
    by (intros r F; now apply find_some in F).
  assert (P : forall p, find (pays_for reservationId) (DB.payments (store w)) = Some p ->
                        pays_for reservationId p = true)
    by (intros p F; now apply find_some in F).
  api_run.
  all: split; [reflexivity|]; split.
  all: try (intros r p [=] [=]; fail).
  all: try (intros [|]; discriminate).
  all: try (intros; split; reflexivity).
  all: intros r p [= ->] [= ->]; eexists _, _, _.
  all: split; [apply find_update_first; [eassumption|exact (Q r eq_refl)]|].
  all: split; [unfold keeps_booking; cbn; tauto|]; split; [reflexivity|].
  all: split; [apply find_update_first; [eassumption|exact (P p eq_refl)]|].
  all: split; [unfold keeps_amount; cbn; tauto|]; cbn.
  all: repeat (split; [reflexivity|]); apply Math_round_half_nearest.
Qed.

Lemma markNoShowAndRefund50_always_refunds_witness :
  let out := markNoShowAndRefund50 (store confirmed_world) sample_admin
               "res_5_19bc0a1f000" sample_env confirmed_world in
  fst out = Ok tt
  /\ exists r' p' refund,
       find (has_id "res_5_19bc0a1f000") (DB.reservations (store (snd out))) = Some r'
       /\ Reservation.status r' = NO_SHOW
       /\ find (pays_for "res_5_19bc0a1f000") (DB.payments (store (snd out))) = Some p'
       /\ Payment.status p' = REFUNDED_PARTIAL
       /\ Meta.refund (Payment.meta p') = Some refund
       /\ Meta.amount refund = 0%Z.
Proof.
  destruct (markNoShowAndRefund50_always_refunds (store confirmed_world) sample_env
              confirmed_world sample_admin "res_5_19bc0a1f000"%string) as (E & H & _).
  split; [exact E|].
  destruct (find (has_id "res_5_19bc0a1f000") (DB.reservations (store confirmed_world)))
    as [r|] eqn:F; [|vm_compute in F; discriminate F].
  destruct (find (pays_for "res_5_19bc0a1f000") (DB.payments (store confirmed_world)))
    as [p|] eqn:G; [|vm_compute in G; discriminate G].
  destruct (H r p eq_refl eq_refl)
    as (r' & p' & refund & Fr & _ & Sr & Fp & _ & Sp & Mr & _ & Ar & _).
  exists r', p', refund. repeat split; try assumption.
  rewrite Ar. vm_compute in G. injection G as <-. reflexivity.
Defined.

(** ** Cancelling a reservation that does not exist *)

(** C7, as stated, fails: cancelling an unknown reservation does not fail,
    and it writes an audit entry. *)
Lemma cancel_unknown_is_audited :
  ~ (forall env w by_ reservationId reason,
       find (has_id reservationId) (DB.reservations (store w)) = None ->
       let out := cancelReservation (store w) by_ reservationId reason env w in
       (exists e, fst out = Throw e)
       /\ DB.reservations (store (snd out)) = DB.reservations (store w)
       /\ DB.audit (store (snd out)) = DB.audit (store w)
       /\ DB.notifications (store (snd out)) = DB.notifications (store w)).
Proof.
  intros H.
  destruct (H sample_env (initial_world sample_env) sample_admin "res_0"%string None
              eq_refl) as ([e E] & _ & A & _).
  vm_compute in A. discriminate A.
Qed.

(** C7 (amended): [cancelReservation] called with an identifier that matches
    no reservation returns without an error; it changes no reservation, no
    payment and no other table and enqueues no notification, but it does
    prepend one audit entry, of action "Reserva", attributed to the caller. *)
Theorem cancelReservation_unknown env w by_ reservationId reason :
  find (has_id reservationId) (DB.reservations (store w)) = None ->
  let out := cancelReservation (store w) by_ reservationId reason env w in
  fst out = Ok tt
  /\ exists entry,
       AuditEntry.by_ entry = by_ /\ AuditEntry.action entry = "Reserva"%string
       /\ store (snd out) = DB.set_audit (cons entry) (store w).
Proof.
  intros F. unfold cancelReservation, owner_email. api_unfold. cbn.
  rewrite F. cbn. split; [reflexivity|].
  eexists. split; [|split]; [| |reflexivity]; reflexivity.
Qed.

Lemma cancelReservation_unknown_witness :
  let out := cancelReservation (store pending_world) sample_admin "res_0" None
               sample_env pending_world in
  fst out = Ok tt
  /\ exists entry,
       AuditEntry.by_ entry = sample_admin /\ AuditEntry.action entry = "Reserva"%string
       /\ store (snd out) = DB.set_audit (cons entry) (store pending_world).
Proof.
  apply (cancelReservation_unknown sample_env pending_world sample_admin
           "res_0"%string None).
  vm_compute. reflexivity.
Defined.

(** ** The validation pipeline of [createReservation] *)

Lemma createReservation_first_failure db env w by_ dateISO time courtId forUserId :
  let out := createReservation db by_ dateISO time courtId forUserId env w in
  let today := fst (now_date env (tick w)) in
  let target := day_of (parse_date env (dateISO ++ "T00:00:00")%string) in
  match first_failure (spec_checks db today target by_ dateISO time courtId forUserId) with
  | Some e => fst out = Throw e /\ store (snd out) = store w
  | None => exists resId, fst out = Ok resId
  end.
Proof.
  cbv zeta. unfold spec_checks, createReservation.
  unfold block_matches, occupies_court, occupies_user.
  destruct (find _ (DB.users db)) as [u|]; [|cbn; split; reflexivity].
  destruct (now_date env (tick w)) as [n k] eqn:N.
  api_unfold. cbn.
  destruct (_ && negb (User.isEmailValidated u)); cbn; [split; reflexivity|].
  destruct (_ && negb (User.isPhoneValidated u)); cbn; [split; reflexivity|].
  rewrite N.
  destruct (parse_date env _) as [[t m]|]; cbn; rewrite ?andb_false_r, ?orb_false_r.
  - destruct (Z.ltb t n); cbn; [split; reflexivity|].
    destruct (Z.ltb (n + 7) t); cbn; [split; reflexivity|].
    destruct (find _ (DB.courts db)) as [c|]; cbn; [|split; reflexivity].
    destruct (Court.isActive c); cbn; [|split; reflexivity].
    repeat (match goal with |- context [existsb ?p ?l] => destruct (existsb p l) end;
            cbn; [split; reflexivity|]).
    eexists. reflexivity.
  - destruct (find _ (DB.courts db)) as [c|]; cbn; [|split; reflexivity].
    destruct (Court.isActive c); cbn; [|split; reflexivity].
    repeat (match goal with |- context [existsb ?p ?l] => destruct (existsb p l) end;
            cbn; [split; reflexivity|]).
    eexists. reflexivity.
Qed.

(** C5: [createReservation] runs its checks in the order of the
    specification (target user, email validation, phone validation, past
    date, advance window, court, block, court conflict, user conflict) and
    throws the error of the first one that fails, leaving the store as it
    was; when none fails it returns the identifier of a new reservation. *)
Theorem createReservation_checks_in_order db env w by_ dateISO time courtId forUserId :
  let out := createReservation db by_ dateISO time courtId forUserId env w in
  let today := fst (now_date env (tick w)) in
  let target := day_of (parse_date env (dateISO ++ "T00:00:00")%string) in
  match first_failure (spec_checks db today target by_ dateISO time courtId forUserId) with
  | Some e => fst out = Throw e /\ store (snd out) = store w
  | None => exists resId, fst out = Ok resId
  end.
Proof. apply createReservation_first_failure. Qed.

(** ** The advance window *)

(** C6: once the target user is resolved and validated, a target date
    strictly before today fails with [PastDate], a target date more than 7
    calendar days after today fails with [TooFarAhead], and a target date from
    today to the 7th day ahead, both included (8 days), passes the window
    check: the call then fails with neither of the two errors. *)
Theorem advance_window db env w by_ dateISO time courtId forUserId u today ms t ms' :
  find (fun x => User.id x =? target_user_id forUserId by_)%string (DB.users db)
    = Some u ->
  Config.requireEmailValidation (DB.config db) && negb (User.isEmailValidated u) = false ->
  Config.requirePhoneValidation (DB.config db) && negb (User.isPhoneValidated u) = false ->
  now_date env (tick w) = (today, ms) ->
  parse_date env (dateISO ++ "T00:00:00")%string = Some (t, ms') ->
  let result := fst (createReservation db by_ dateISO time courtId forUserId env w) in
  ((t < today)%Z -> result = Throw PastDate)
  /\ ((today + 7 < t)%Z -> result = Throw TooFarAhead)
  /\ ((today <= t <= today + 7)%Z ->
      result <> Throw PastDate /\ result <> Throw TooFarAhead).
Proof.
  intros U E P N D.
  pose proof (createReservation_first_failure db env w by_ dateISO time courtId forUserId)
    as H.
  cbv zeta in H. unfold spec_checks in H. rewrite U, E, P, N, D in H. cbn in H.
  cbv zeta. split; [|split].
  - intros L. apply Z.ltb_lt in L. rewrite L in H. apply H.
  - intros L. destruct (Z.ltb_spec t today); [lia|].
    apply Z.ltb_lt in L. rewrite L in H. apply H.
  - intros L. destruct (Z.ltb_spec t today); [lia|].
    destruct (Z.ltb_spec (today + 7) t); [lia|].
    split; intros R; rewrite R in H.
    all: repeat match type of H with
           | match (if ?b then _ else _) with _ => _ end => destruct b
           | exists _, _ => destruct H as [? H]
           | _ /\ _ => destruct H as [H _]
           end; discriminate H.
Qed.

(** The administrator is validated; day 107 is the 7th day after day 100. *)
Lemma advance_window_witness :
  (fst (createReservation (store (initial_world sample_env)) sample_admin "2026-01-22"
          "08:00" "c1" None sample_env (initial_world sample_env)) <> Throw PastDate
   /\ fst (createReservation (store (initial_world sample_env)) sample_admin "2026-01-22"
            "08:00" "c1" None sample_env (initial_world sample_env)) <> Throw TooFarAhead)
  /\ fst (createReservation (store (initial_world sample_env)) sample_admin "2026-01-23"
            "08:00" "c1" None sample_env (initial_world sample_env)) = Throw TooFarAhead
  /\ fst (createReservation (store (initial_world sample_env)) sample_admin "2026-01-14"
            "08:00" "c1" None sample_env (initial_world sample_env)) = Throw PastDate.
Proof.
  split; [|split].
  - refine (proj2 (proj2 (advance_window (store (initial_world sample_env))
              sample_env (initial_world sample_env) sample_admin "2026-01-22"%string
              "08:00"%string "c1"%string None _ 100%Z _ 107%Z _
              eq_refl eq_refl eq_refl eq_refl eq_refl)) _).
    lia.
  - refine (proj1 (proj2 (advance_window (store (initial_world sample_env))
              sample_env (initial_world sample_env) sample_admin "2026-01-23"%string
              "08:00"%string "c1"%string None _ 100%Z _ 108%Z _
              eq_refl eq_refl eq_refl eq_refl eq_refl)) _).
    lia.
  - refine (proj1 (advance_window (store (initial_world sample_env))
              sample_env (initial_world sample_env) sample_admin "2026-01-14"%string
              "08:00"%string "c1"%string None _ 100%Z _ 99%Z _
              eq_refl eq_refl eq_refl eq_refl eq_refl) _).
    lia.
Defined.

(** ** The price snapshot *)

Lemma keeps_amount_refl p : keeps_amount p p.
Proof. unfold keeps_amount. tauto. Qed.

Lemma keeps_amount_trans p1 p2 p3 :
  keeps_amount p1 p2 -> keeps_amount p2 p3 -> keeps_amount p1 p3.
Proof. unfold keeps_amount. intuition congruence. Qed.

Ltac payment_position N :=
  match goal with
  | |- context [update_first ?q ?f _] =>
      destruct (nth_error_update_first q f _ _ _ N) as [?E|[_ ?E]];
      [eauto using keeps_amount_refl
      | eexists; split; [exact E | unfold keeps_amount; cbn; tauto]]
  | _ => eauto using keeps_amount_refl
  end.

Lemma registerCashPayment_payment_position db by_ reservationId env w i p :
  nth_error (DB.payments (store w)) i = Some p ->
  exists p',
    nth_error (DB.payments (store (snd (registerCashPayment db by_ reservationId env w)))) i
      = Some p'
    /\ keeps_amount p p'.
Proof. intros N. api_run; payment_position N. Qed.

Lemma call_payment_position env w c i p :
  nth_error (DB.payments (store w)) i = Some p ->
  exists p', nth_error (DB.payments (store (after env w c))) i = Some p'
    /\ keeps_amount p p'.
Proof.
  intros N. destruct c.
  13: {
    unfold after, perform, ignore, adminCreateManualReservation, bind.
    destruct (createReservation_cases (store w) by_ dateISO time courtId userId env w)
      as [(e & w' & E & S)|(resId & w' & E & C)]; rewrite E; cbn.
    - rewrite S. eauto using keeps_amount_refl.
    - assert (N' : nth_error (DB.payments (store w')) i = Some p).
      { destruct C as [u ? ? ? ? ? _ _ _ _ -> _ _ _ _]. now apply nth_error_push_old. }
      destruct markPaidCash; cbn; [|eauto using keeps_amount_refl].
      pose proof (registerCashPayment_payment_position (store w) by_ resId env w' i p N')
        as R.
      destruct (registerCashPayment (store w) by_ resId env w') as [[[]|e] w''];
        cbn in *; exact R. }
  8: {
    unfold after, perform, ignore, bind.
    destruct (createReservation_cases (store w) by_ dateISO time courtId forUserId env w)
      as [(e & w' & E & S)|(resId & w' & E & C)]; rewrite E; cbn.
    - rewrite S. eauto using keeps_amount_refl.
    - destruct C as [u ? ? ? ? ? _ _ _ _ -> _ _ _ _].
      eauto using nth_error_push_old, keeps_amount_refl. }
  all: api_run; payment_position N.
Qed.

Lemma later_reservation_position env w w' i r :
  later env w w' ->
  nth_error (DB.reservations (store w)) i = Some r ->
  exists r', nth_error (DB.reservations (store w')) i = Some r' /\ keeps_booking r r'.
Proof.
  induction 1 as [|w' c L IH]; intros N.
  - exists r. split; [assumption|]. unfold keeps_booking. tauto.
  - destruct (IH N) as (r1 & N1 & K1).
    destruct (call_position false env w' c i r1 ltac:(discriminate) N1)
      as (r2 & N2 & K2 & _).
    eauto using keeps_booking_trans.
Qed.

Lemma later_payment_position env w w' i p :
  later env w w' ->
  nth_error (DB.payments (store w)) i = Some p ->
  exists p', nth_error (DB.payments (store w')) i = Some p' /\ keeps_amount p p'.
Proof.
  induction 1 as [|w' c L IH]; intros N.
  - eauto using keeps_amount_refl.
  - destruct (IH N) as (p1 & N1 & K1).
    destruct (call_payment_position env w' c i p1 N1) as (p2 & N2 & K2).
    eauto using keeps_amount_trans.
Qed.

Lemma setConfig_frame env w by_ patch :
  let st' := store (after env w (CallSetConfig by_ patch)) in
  DB.config st' = merge_config (DB.config (store w)) patch
  /\ DB.reservations st' = DB.reservations (store w)
  /\ DB.payments st' = DB.payments (store w)
  /\ DB.users st' = DB.users (store w)
  /\ DB.courts st' = DB.courts (store w)
  /\ DB.blocks st' = DB.blocks (store w)
  /\ DB.notifications st' = DB.notifications (store w)
  /\ DB.sessions st' = DB.sessions (store w).
Proof. api_run. repeat split. Qed.

Lemma created_price db by_ dateISO time courtId forUserId env w resId w' :
  createReservation db by_ dateISO time courtId forUserId env w = (Ok resId, w') ->
  exists u r p,
    find (fun x => User.id x =? target_user_id forUserId by_)%string (DB.users db)
      = Some u
    /\ DB.reservations (store w') = push r (DB.reservations (store w))
    /\ DB.payments (store w') = push p (DB.payments (store w))
    /\ Reservation.id r = resId /\ Payment.reservationId p = resId
    /\ Reservation.price r =
       (if user_type_eqb (User.userType u) Socio
        then Config.priceSocio (DB.config db) else Config.priceNoSocio (DB.config db))
    /\ Payment.amount p = Reservation.price r.
Proof.
  intros E.
  destruct (createReservation_cases db by_ dateISO time courtId forUserId env w)
    as [(e & w1 & E1 & _)|(resId1 & w1 & E1 & C)]; rewrite E in E1; [discriminate|].
  injection E1 as <- <-. destruct C as [u ? ? ? ? ? U _ _ R P _ _ _ _].
  eexists u, _, _. split; [exact U|]. split; [exact R|]. split; [exact P|].
  cbn. repeat split; reflexivity.
Qed.

(** C8: the price of a reservation is taken at creation from the
    configuration of that moment ([priceSocio] for a "Socio", [priceNoSocio]
    otherwise) and copied to the amount of its payment; no later call changes
    the price of a reservation or the amount of a payment; [setConfig]
    rewrites the configuration and, its audit entry apart, nothing else. *)
Theorem price_is_a_snapshot :
  (forall db by_ dateISO time courtId forUserId env w resId w',
     createReservation db by_ dateISO time courtId forUserId env w = (Ok resId, w') ->
     exists u r p,
       find (fun x => User.id x =? target_user_id forUserId by_)%string
         (DB.users db) = Some u
       /\ DB.reservations (store w') = push r (DB.reservations (store w))
       /\ DB.payments (store w') = push p (DB.payments (store w))
       /\ Reservation.id r = resId /\ Payment.reservationId p = resId
       /\ Reservation.price r =
          (if user_type_eqb (User.userType u) Socio
           then Config.priceSocio (DB.config db) else Config.priceNoSocio (DB.config db))
       /\ Payment.amount p = Reservation.price r)
  /\ (forall env w w' i r,
        later env w w' ->
        nth_error (DB.reservations (store w)) i = Some r ->
        exists r', nth_error (DB.reservations (store w')) i = Some r'
          /\ Reservation.id r' = Reservation.id r
          /\ Reservation.price r' = Reservation.price r)
  /\ (forall env w w' i p,
        later env w w' ->
        nth_error (DB.payments (store w)) i = Some p ->
        exists p', nth_error (DB.payments (store w')) i = Some p'
          /\ Payment.reservationId p' = Payment.reservationId p
          /\ Payment.amount p' = Payment.amount p)
  /\ (forall env w by_ patch,
        let st' := store (after env w (CallSetConfig by_ patch)) in
        DB.config st' = merge_config (DB.config (store w)) patch
        /\ DB.reservations st' = DB.reservations (store w)
        /\ DB.payments st' = DB.payments (store w)
        /\ DB.users st' = DB.users (store w)
        /\ DB.courts st' = DB.courts (store w)
        /\ DB.blocks st' = DB.blocks (store w)
        /\ DB.notifications st' = DB.notifications (store w)
        /\ DB.sessions st' = DB.sessions (store w)).
Proof.
  split; [exact created_price|]. split; [|split; [|exact setConfig_frame]].
  - intros env w w' i r L N.
    destruct (later_reservation_position env w w' i r L N) as (r' & N' & K).
    exists r'. unfold keeps_booking in K. tauto.
  - intros env w w' i p L N.
    destruct (later_payment_position env w w' i p L N) as (p' & N' & K).
    exists p'. unfold keeps_amount in K. tauto.
Qed.

Lemma price_is_a_snapshot_witness :
  exists r', nth_error (DB.reservations (store repriced_world)) 0 = Some r'
    /\ Reservation.id r' = "res_5_19bc0a1f000"%string
    /\ Reservation.price r' = 0%Z.
Proof.
  destruct (nth_error (DB.reservations (store pending_world)) 0) as [r|] eqn:N;
    [|vm_compute in N; discriminate N].
  destruct (proj1 (proj2 price_is_a_snapshot) sample_env pending_world repriced_world
              0 r) as (r' & N' & I & P).
  - unfold repriced_world. cbn [after_all]. repeat constructor.
  - exact N.
  - exists r'. rewrite I, P. vm_compute in N. injection N as <-.
    split; [exact N'|]. split; reflexivity.
Defined.

(** ** The password policy *)











(** ** Uniqueness of users *)

Lemma map_update_first {A B : Type} (g : A -> B) (q : A -> bool) (f : A -> A) l :
  (forall x, g (f x) = g x) -> map g (update_first q f l) = map g l.
Proof.
  intros H. induction l as [|x l IH]; simpl; [reflexivity|].
  destruct (q x); simpl; congruence.
Qed.









(** ** Reservations and their payments *)

Lemma Forall2_push {A B : Type} (R : A -> B -> Prop) l1 l2 x y :
  Forall2 R l1 l2 -> R x y -> Forall2 R (push x l1) (push y l2).
Proof. intros H Hxy. unfold push. apply Forall2_app; auto. Qed.

Lemma coupled_update_both reservationId f g rs ps :
  Forall2 coupled rs ps ->
  (forall r p, coupled r p -> coupled (f r) (g p)) ->
  Forall2 coupled (update_first (has_id reservationId) f rs)
    (update_first (pays_for reservationId) g ps).
Proof.
  intros H K. induction H as [|r p rs ps C H IH]; simpl; [constructor|].
  assert (E : pays_for reservationId p = has_id reservationId r)
    by (unfold pays_for, has_id; destruct C as [-> _]; reflexivity).
  rewrite E. destruct (has_id reservationId r); constructor; auto.
Qed.

Lemma coupled_update_reservation q f rs ps :
  Forall2 coupled rs ps ->
  (forall r p, coupled r p -> coupled (f r) p) ->
  Forall2 coupled (update_first q f rs) ps.
Proof.
  intros H K. induction H as [|r p rs ps C H IH]; simpl; [constructor|].
  destruct (q r); constructor; auto.
Qed.

Lemma coupled_found reservationId rs ps r :
  Forall2 coupled rs ps ->
  find (has_id reservationId) rs = Some r ->
  exists p, find (pays_for reservationId) ps = Some p /\ coupled r p.
Proof.
  intros H. induction H as [|r0 p0 rs ps C H IH]; simpl; [discriminate|].
  assert (E : pays_for reservationId p0 = has_id reservationId r0)
    by (unfold pays_for, has_id; destruct C as [-> _]; reflexivity).
  rewrite E. destruct (has_id reservationId r0).
  - intros [= <-]. eauto.
  - exact IH.
Qed.

Ltac coupled_step :=
  match goal with
  | |- Forall2 coupled (update_first (has_id ?x) ?f _) (update_first (pays_for ?x) ?g _) =>
      apply coupled_update_both; [assumption|]
  | |- Forall2 coupled (update_first _ ?f _) _ =>
      apply coupled_update_reservation; [assumption|]
  end;
  let r := fresh "r" in let p := fresh "p" in
  intros r p (Hid & Ham & Hst & Hme & Hre);
  unfold coupled, method_ok, refund_ok in *; cbn;
  repeat split; try assumption; try discriminate;
  destruct (Reservation.status r), (Payment.status p);
  try discriminate; try reflexivity; try assumption.

Lemma registerCashPayment_coupled db by_ reservationId env w :
  Forall2 coupled (DB.reservations (store w)) (DB.payments (store w)) ->
  Forall2 coupled
    (DB.reservations (store (snd (registerCashPayment db by_ reservationId env w))))
    (DB.payments (store (snd (registerCashPayment db by_ reservationId env w)))).
Proof. intros H. api_run; try assumption; coupled_step. Qed.

Lemma call_keeps_coupled env w c :
  Forall2 coupled (DB.reservations (store w)) (DB.payments (store w)) ->
  Forall2 coupled (DB.reservations (store (after env w c)))
    (DB.payments (store (after env w c))).
Proof.
  intros H. destruct c.
  13: {
    unfold after, perform, ignore, adminCreateManualReservation, bind.
    destruct (createReservation_cases (store w) by_ dateISO time courtId userId env w)
      as [(e & w' & E & S)|(resId & w' & E & C)]; rewrite E; cbn.
    - now rewrite S.
    - assert (H' : Forall2 coupled (DB.reservations (store w')) (DB.payments (store w'))).
      { destruct C as [u ? ? ? ? ? _ _ _ -> -> _ _ _ _].
        apply Forall2_push; [assumption|]. unfold coupled, method_ok, refund_ok. cbn.
        tauto. }
      destruct markPaidCash; cbn; [|assumption].
      pose proof (registerCashPayment_coupled (store w) by_ resId env w' H') as R.
      destruct (registerCashPayment (store w) by_ resId env w') as [[[]|e] w''];
        cbn in *; exact R. }
  8: {
    unfold after, perform, ignore, bind.
    destruct (createReservation_cases (store w) by_ dateISO time courtId forUserId env w)
      as [(e & w' & E & S)|(resId & w' & E & C)]; rewrite E; cbn.
    - now rewrite S.
    - destruct C as [u ? ? ? ? ? _ _ _ -> -> _ _ _ _].
      apply Forall2_push; [assumption|]. unfold coupled, method_ok, refund_ok. cbn.
      tauto. }
  all: api_run; try assumption; coupled_step.
Qed.

Lemma reachable_coupled env w :
  reachable env w ->
  Forall2 coupled (DB.reservations (store w)) (DB.payments (store w)).
Proof.
  induction 1 as [|w c R IH]; [constructor|]. now apply call_keeps_coupled.
Qed.

Lemma Forall2_position {A B : Type} (R : A -> B -> Prop) l1 l2 i x :
  Forall2 R l1 l2 -> nth_error l1 i = Some x ->
  exists y, nth_error l2 i = Some y /\ R x y.
Proof.
  intros H. revert i. induction H as [|a b l1 l2 Hab H IH]; intros [|i]; simpl;
    try discriminate.
  - intros [= <-]. eauto.
  - apply IH.
Qed.

Lemma Forall2_partner {A B : Type} (R : A -> B -> Prop) l1 l2 y :
  Forall2 R l1 l2 -> In y l2 -> exists x, In x l1 /\ R x y.
Proof.
  induction 1 as [|a b l1 l2 Hab H IH]; simpl; [tauto|].
  intros [<-|I]; [eauto|]. destruct (IH I) as (x & Ix & Rx). eauto.
Qed.

(** Reachability of a world written as calls after the initial world. *)
Ltac reach :=
  cbn [after_all];
  lazymatch goal with
  | |- reachable _ (after _ _ _) => apply reachable_step; reach
  | |- reachable _ (initial_world _) => apply reachable_init
  end.

(** Every reservation has its payment: in a state reached through the API,
    reservations and payments are as many, the payment at the position of a
    reservation carries its identifier and its price as amount, and the
    payment that a lookup by reservation identifier finds belongs to the
    reservation that the lookup by identifier finds. *)
Theorem every_reservation_has_its_payment env w :
  reachable env w ->
  length (DB.payments (store w)) = length (DB.reservations (store w))
  /\ (forall i r,
        nth_error (DB.reservations (store w)) i = Some r ->
        exists p, nth_error (DB.payments (store w)) i = Some p
          /\ Payment.reservationId p = Reservation.id r
          /\ Payment.amount p = Reservation.price r)
  /\ (forall reservationId r,
        find (has_id reservationId) (DB.reservations (store w)) = Some r ->
        exists p, find (pays_for reservationId) (DB.payments (store w)) = Some p
          /\ Payment.reservationId p = Reservation.id r
          /\ Payment.amount p = Reservation.price r).
Proof.
  intros R. pose proof (reachable_coupled env w R) as H. split; [|split].
  - symmetry. eapply Forall2_length; eauto.
  - intros i r N. destruct (Forall2_position _ _ _ _ _ H N) as (p & Np & C).
    exists p. unfold coupled in C. tauto.
  - intros x r F. destruct (coupled_found x _ _ r H F) as (p & Fp & C).
    exists p. unfold coupled in C. tauto.
Qed.

Lemma every_reservation_has_its_payment_witness :
  length (DB.payments (store confirmed_world))
  = length (DB.reservations (store confirmed_world)).
Proof.
  refine (proj1 (every_reservation_has_its_payment sample_env confirmed_world _)).
  unfold confirmed_world, pending_world. reach.
Defined.

(** The statuses of a reservation and of its payment go together: in a
    state reached through the API, a [PENDING_PAYMENT] reservation has a
    [PENDING] payment, a [CONFIRMED] one an [APPROVED] payment, a [NO_SHOW]
    one a [REFUNDED_PARTIAL] payment, and no payment is ever [REJECTED]. *)
Theorem payment_status_follows_reservation env w :
  reachable env w ->
  (forall i r p,
     nth_error (DB.reservations (store w)) i = Some r ->
     nth_error (DB.payments (store w)) i = Some p ->
     match Reservation.status r with
     | PENDING_PAYMENT => Payment.status p = PENDING
     | CONFIRMED => Payment.status p = APPROVED
     | NO_SHOW => Payment.status p = REFUNDED_PARTIAL
     | CANCELLED => True
     end)
  /\ (forall p, In p (DB.payments (store w)) -> Payment.status p <> REJECTED).
Proof.
  intros R. pose proof (reachable_coupled env w R) as H. split.
  - intros i r p Nr Np. destruct (Forall2_position _ _ _ _ _ H Nr) as (p' & Np' & C).
    rewrite Np in Np'. injection Np' as <-. destruct C as (_ & _ & S & _).
    destruct (Reservation.status r), (Payment.status p); try discriminate; reflexivity.
  - intros p I E. destruct (Forall2_partner _ _ _ _ H I) as (r & _ & C).
    destruct C as (_ & _ & S & _). rewrite E in S.
    destruct (Reservation.status r); discriminate.
Qed.

Lemma payment_status_follows_reservation_witness :
  exists r p,
    nth_error (DB.reservations (store confirmed_world)) 0 = Some r
    /\ nth_error (DB.payments (store confirmed_world)) 0 = Some p
    /\ Reservation.status r = CONFIRMED /\ Payment.status p = APPROVED.
Proof.
  destruct (nth_error (DB.reservations (store confirmed_world)) 0) as [r|] eqn:Nr;
    [|vm_compute in Nr; discriminate Nr].
  destruct (nth_error (DB.payments (store confirmed_world)) 0) as [p|] eqn:Np;
    [|vm_compute in Np; discriminate Np].
  assert (S : Reservation.status r = CONFIRMED)
    by (vm_compute in Nr; injection Nr as <-; reflexivity).
  assert (R : reachable sample_env confirmed_world)
    by (unfold confirmed_world, pending_world; reach).
  pose proof (proj1 (payment_status_follows_reservation sample_env confirmed_world R)
                0 r p Nr Np) as H.
  rewrite S in H. exists r, p.
  split; [reflexivity|]. split; [reflexivity|]. split; [exact S|exact H].
Defined.

(** The refund record: in a state reached through the API, a payment holds
    a refund record exactly when its status is [REFUNDED_PARTIAL], and the
    record is then 50 percent with amount [Math.round(amount * 0.5)]; the
    method of a [PENDING] payment is unset and that of an [APPROVED] one is
    set. *)
Theorem refund_record_is_half env w p :
  reachable env w -> In p (DB.payments (store w)) ->
  (Payment.status p = REFUNDED_PARTIAL <-> Meta.refund (Payment.meta p) <> None)
  /\ (forall refund,
        Meta.refund (Payment.meta p) = Some refund ->
        Meta.percent refund = 50%Z
        /\ Meta.amount refund = Math_round_half (Payment.amount p))
  /\ (Payment.status p = PENDING -> Payment.method p = None)
  /\ (Payment.status p = APPROVED -> Payment.method p <> None).
Proof.
  intros R I. pose proof (reachable_coupled env w R) as H.
  destruct (Forall2_partner _ _ _ _ H I) as (r & _ & C).
  destruct C as (_ & _ & _ & M & F). unfold method_ok, refund_ok in *.
  destruct (Payment.status p), (Meta.refund (Payment.meta p)) as [refund|];
    try contradiction.
  all: split; [split; intros X; congruence|].
  all: split; [intros ? [= <-]; tauto || discriminate | split; congruence].
Qed.

Lemma refund_record_is_half_witness :
  exists p refund,
    nth_error (DB.payments (store (after_all sample_env (initial_world sample_env)
                                     no_show_calls))) 0 = Some p
    /\ Meta.refund (Payment.meta p) = Some refund
    /\ Meta.amount refund = Math_round_half (Payment.amount p).
Proof.
  destruct (nth_error (DB.payments (store (after_all sample_env (initial_world sample_env)
                                             no_show_calls))) 0) as [p|] eqn:Np;
    [|vm_compute in Np; discriminate Np].
  destruct (Meta.refund (Payment.meta p)) as [refund|] eqn:E;
    [|vm_compute in Np; injection Np as <-; vm_compute in E; discriminate E].
  exists p, refund. split; [reflexivity|]. split; [exact E|].
  refine (proj2 (proj1 (proj2 (refund_record_is_half sample_env _ p _
                                 (nth_error_In _ _ Np))) refund E)).
  unfold no_show_calls. reach.
Defined.

(** ** The audit log and the notifications *)

Lemma extends_log_refl {A : Type} (l : list A) : extends_log l l.
Proof. now exists []. Qed.

Lemma extends_log_cons {A : Type} (x : A) l' l :
  extends_log l' l -> extends_log (x :: l') l.
Proof. intros [front ->]. now exists (x :: front). Qed.

Lemma extends_log_trans {A : Type} (l1 l2 l3 : list A) :
  extends_log l3 l2 -> extends_log l2 l1 -> extends_log l3 l1.
Proof. intros [f2 ->] [f1 ->]. exists (f2 ++ f1). now rewrite app_assoc. Qed.

Ltac log_grows := repeat apply extends_log_cons; apply extends_log_refl.

Lemma call_extends_logs env w c :
  extends_log (DB.audit (store (after env w c))) (DB.audit (store w))
  /\ extends_log (DB.notifications (store (after env w c))) (DB.notifications (store w)).
Proof. destruct c; api_unfold; api_run; split; log_grows. Qed.




(** The audit log and the notifications only grow at the front: whatever
    they hold in a state is still there, in the same order, in every later
    state. *)
Theorem logs_are_append_only env w w' :
  later env w w' ->
  extends_log (DB.audit (store w')) (DB.audit (store w))
  /\ extends_log (DB.notifications (store w')) (DB.notifications (store w)).
Proof.
  induction 1 as [|w' c L [IHa IHn]]; [split; apply extends_log_refl|].
  destruct (call_extends_logs env w' c) as [Ha Hn].
  split; eapply extends_log_trans; eauto.
Qed.

Lemma logs_are_append_only_witness :
  extends_log (DB.audit (store repriced_world)) (DB.audit (store pending_world))
  /\ extends_log (DB.notifications (store repriced_world))
       (DB.notifications (store pending_world)).
Proof.
  apply (logs_are_append_only sample_env pending_world repriced_world).
  unfold repriced_world. cbn [after_all]. apply later_step, later_step, later_refl.
Defined.

(** ** Users and courts *)

Lemma keeps_identity_refl u : keeps_identity u u.
Proof. unfold keeps_identity. tauto. Qed.

Lemma keeps_identity_trans u1 u2 u3 :
  keeps_identity u1 u2 -> keeps_identity u2 u3 -> keeps_identity u1 u3.
Proof. unfold keeps_identity. intuition congruence. Qed.

Lemma create_keeps_users env w c :
  match c with
  | CallCreateReservation _ _ _ _ _ | CallAdminCreateManualReservation _ _ _ _ _ _ => True
  | _ => False
  end ->
  DB.users (store (after env w c)) = DB.users (store w)
  /\ DB.courts (store (after env w c)) = DB.courts (store w)
  /\ DB.blocks (store (after env w c)) = DB.blocks (store w)
  /\ DB.config (store (after env w c)) = DB.config (store w).
Proof.
  destruct c; try contradiction; intros _.
  - unfold after, perform, ignore, bind.
    destruct (createReservation_cases (store w) by_ dateISO time courtId forUserId env w)
      as [(e & w' & E & S)|(resId & w' & E & C)]; rewrite E; cbn.
    + rewrite S. tauto.
    + destruct C. tauto.
  - unfold after, perform, ignore, adminCreateManualReservation, bind.
    destruct (createReservation_cases (store w) by_ dateISO time courtId userId env w)
      as [(e & w' & E & S)|(resId & w' & E & C)]; rewrite E; cbn.
    + rewrite S. tauto.
    + assert (K : DB.users (store w') = DB.users (store w)
                  /\ DB.courts (store w') = DB.courts (store w)
                  /\ DB.blocks (store w') = DB.blocks (store w)
                  /\ DB.config (store w') = DB.config (store w)) by (destruct C; tauto).
      destruct markPaidCash; cbn; [|exact K].
      assert (R : DB.users (store (snd (registerCashPayment (store w) by_ resId env w')))
                  = DB.users (store w')
                  /\ DB.courts (store (snd (registerCashPayment (store w) by_ resId env w')))
                     = DB.courts (store w')
                  /\ DB.blocks (store (snd (registerCashPayment (store w) by_ resId env w')))
                     = DB.blocks (store w')
                  /\ DB.config (store (snd (registerCashPayment (store w) by_ resId env w')))
                     = DB.config (store w'))
        by (clear; api_run; tauto).
      destruct (registerCashPayment (store w) by_ resId env w') as [[[]|e] w''];
        cbn in *; intuition congruence.
Qed.

Lemma call_user_position env w c i u :
  nth_error (DB.users (store w)) i = Some u ->
  exists u', nth_error (DB.users (store (after env w c))) i = Some u'
    /\ keeps_identity u u'
    /\ ((forall by_ emailOk phoneOk, c <> CallValidateAccount by_ emailOk phoneOk) ->
        u' = u).
Proof.
  intros N. destruct c.
  8, 13: match goal with
         | |- context [after ?e ?w0 ?c] =>
             destruct (create_keeps_users e w0 c I) as [-> _]
         end; eauto using keeps_identity_refl.
  all: api_run; eauto using keeps_identity_refl, nth_error_push_old.
  all: match goal with
       | |- context [update_first ?q ?f _] =>
           destruct (nth_error_update_first q f _ _ _ N) as [E|[_ E]];
           [exists u; split; [exact E|]; split;
             [apply keeps_identity_refl | reflexivity]
           | exists (f u); split; [exact E|]; split;
             [unfold keeps_identity; cbn; tauto
             | intros X; exfalso; eapply X; reflexivity]]
       end.
Qed.

(** Users are never removed and, their two validation flags apart, never
    changed: identifier, role, email, phone, DNI, tier, creation time and
    password of a stored user stay what they are in every later state; and
    only [validateAccount] touches the flags. *)
Theorem users_keep_their_identity :
  (forall env w w' i u,
     later env w w' ->
     nth_error (DB.users (store w)) i = Some u ->
     exists u', nth_error (DB.users (store w')) i = Some u' /\ keeps_identity u u')
  /\ (forall env w c i u,
        (forall by_ emailOk phoneOk, c <> CallValidateAccount by_ emailOk phoneOk) ->
        nth_error (DB.users (store w)) i = Some u ->
        nth_error (DB.users (store (after env w c))) i = Some u).
Proof.
  split.
  - intros env w w' i u L. induction L as [|w' c L IH]; intros N.
    + eauto using keeps_identity_refl.
    + destruct (IH N) as (u1 & N1 & K1).
      destruct (call_user_position env w' c i u1 N1) as (u2 & N2 & K2 & _).
      eauto using keeps_identity_trans.
  - intros env w c i u X N.
    destruct (call_user_position env w c i u N) as (u' & N' & _ & E).
    now rewrite N', (E X).
Qed.

Lemma users_keep_their_identity_witness :
  exists u', nth_error (DB.users (store shared_phone_world)) 0 = Some u'
    /\ User.email u' = "admin@edlp.com"%string /\ User.userType u' = Socio.
Proof.
  destruct (nth_error (DB.users (store (initial_world sample_env))) 0) as [u|] eqn:N;
    [|vm_compute in N; discriminate N].
  destruct (proj1 users_keep_their_identity sample_env (initial_world sample_env)
              shared_phone_world 0 u) as (u' & N' & K).
  - unfold shared_phone_world. apply later_step, later_refl.
  - exact N.
  - exists u'. split; [exact N'|]. unfold keeps_identity in K.
    vm_compute in N. injection N as <-. cbn in K. tauto.
Defined.

Lemma call_keeps_courts env w c :
  map Court.id (DB.courts (store (after env w c))) = map Court.id (DB.courts (store w))
  /\ map Court.name (DB.courts (store (after env w c)))
     = map Court.name (DB.courts (store w)).
Proof.
  destruct c.
  8, 13: match goal with
         | |- context [after ?e ?w0 ?c] =>
             destruct (create_keeps_users e w0 c I) as (_ & -> & _)
         end; split; reflexivity.
  all: api_run; split; try reflexivity.
  all: apply map_update_first; reflexivity.
Qed.

(** The courts are a fixed set: in every state reached through the API the
    court list holds the four seeded identifiers and names, in order; only
    the active flag of a court ever changes. *)
Theorem courts_are_fixed env w :
  reachable env w ->
  map Court.id (DB.courts (store w)) = ["c1"; "c2"; "c3"; "c4"]%string
  /\ map Court.name (DB.courts (store w))
     = ["Cancha 1"; "Cancha 2"; "Cancha 3"; "Cancha 4"]%string.
Proof.
  induction 1 as [|w c R [IHi IHn]]; [split; reflexivity|].
  destruct (call_keeps_courts env w c) as [-> ->]. now split.
Qed.

Lemma courts_are_fixed_witness :
  map Court.id (DB.courts (store repriced_world)) = ["c1"; "c2"; "c3"; "c4"]%string.
Proof.
  refine (proj1 (courts_are_fixed sample_env repriced_world _)).
  unfold repriced_world, pending_world. reach.
Defined.

(** ** Administrative calls and the next booking *)

Lemma first_failure_stops (early : list (bool * JsError)) e rest :
  exists e', first_failure (early ++ (true, e) :: rest) = Some e'
    /\ In e' (map snd early ++ [e]).
Proof.
  induction early as [|[[|] e0] early IH]; cbn.
  - eauto.
  - eauto.
  - destruct IH as (e' & -> & I). eauto.
Qed.

(** [createReservation] stops at the check of position [n] or before, when
    that check fails. *)
Lemma createReservation_stops db env w by_ dateISO time courtId forUserId early e rest :
  spec_checks db (fst (now_date env (tick w)))
    (day_of (parse_date env (dateISO ++ "T00:00:00")%string))
    by_ dateISO time courtId forUserId = early ++ (true, e) :: rest ->
  exists e',
    fst (createReservation db by_ dateISO time courtId forUserId env w) = Throw e'
    /\ In e' (map snd early ++ [e]).
Proof.
  intros S.
  pose proof (createReservation_first_failure db env w by_ dateISO time courtId forUserId)
    as H. cbv zeta in H. rewrite S in H.
  destruct (first_failure_stops early e rest) as (e' & F & I).
  rewrite F in H. exists e'. tauto.
Qed.

Lemma createReservation_court_stop db env w by_ dateISO time courtId forUserId :
  match find (fun x => Court.id x =? courtId)%string (DB.courts db) with
  | Some c => negb (Court.isActive c)
  | None => true
  end = true ->
  exists e,
    fst (createReservation db by_ dateISO time courtId forUserId env w) = Throw e
    /\ In e [InvalidUser; AccountNotValidated_email; AccountNotValidated_phone;
             PastDate; TooFarAhead; ResourceUnavailable].
Proof.
  intros C.
  destruct (find (fun x => User.id x =? target_user_id forUserId by_)%string (DB.users db))
    as [u|] eqn:U.
  - destruct (createReservation_stops db env w by_ dateISO time courtId forUserId
                (firstn 4 (spec_checks db (fst (now_date env (tick w)))
                             (day_of (parse_date env (dateISO ++ "T00:00:00")%string))
                             by_ dateISO time courtId forUserId))
                ResourceUnavailable
                (skipn 5 (spec_checks db (fst (now_date env (tick w)))
                            (day_of (parse_date env (dateISO ++ "T00:00:00")%string))
                            by_ dateISO time courtId forUserId)))
      as (e & E & I).
    + unfold spec_checks. rewrite U, C. reflexivity.
    + exists e. split; [exact E|]. unfold spec_checks in I. rewrite U in I. cbn in I.
      cbn. tauto.
  - destruct (createReservation_stops db env w by_ dateISO time courtId forUserId
                [] InvalidUser []) as (e & E & I).
    + unfold spec_checks. now rewrite U.
    + exists e. split; [exact E|]. cbn in *. tauto.
Qed.

Lemma createReservation_block_stop db env w by_ dateISO time courtId forUserId :
  existsb (block_matches courtId dateISO time) (DB.blocks db) = true ->
  exists e,
    fst (createReservation db by_ dateISO time courtId forUserId env w) = Throw e
    /\ In e [InvalidUser; AccountNotValidated_email; AccountNotValidated_phone;
             PastDate; TooFarAhead; ResourceUnavailable; SlotBlocked].
Proof.
  intros B.
  destruct (find (fun x => Court.id x =? courtId)%string (DB.courts db)) as [c|] eqn:C.
  2: { destruct (createReservation_court_stop db env w by_ dateISO time courtId forUserId)
         as (e & E & I); [now rewrite C|]. exists e. cbn in *. tauto. }
  destruct (Court.isActive c) eqn:A.
  2: { destruct (createReservation_court_stop db env w by_ dateISO time courtId forUserId)
         as (e & E & I); [now rewrite C, A|]. exists e. cbn in *. tauto. }
  destruct (find (fun x => User.id x =? target_user_id forUserId by_)%string (DB.users db))
    as [u|] eqn:U.
  - destruct (createReservation_stops db env w by_ dateISO time courtId forUserId
                (firstn 5 (spec_checks db (fst (now_date env (tick w)))
                             (day_of (parse_date env (dateISO ++ "T00:00:00")%string))
                             by_ dateISO time courtId forUserId))
                SlotBlocked
                (skipn 6 (spec_checks db (fst (now_date env (tick w)))
                            (day_of (parse_date env (dateISO ++ "T00:00:00")%string))
                            by_ dateISO time courtId forUserId)))
      as (e & E & I).
    + unfold spec_checks. rewrite U. unfold block_matches in B. rewrite B. reflexivity.
    + exists e. split; [exact E|]. unfold spec_checks in I. rewrite U in I. cbn in I.
      cbn. tauto.
  - destruct (createReservation_stops db env w by_ dateISO time courtId forUserId
                [] InvalidUser []) as (e & E & I).
    + unfold spec_checks. now rewrite U.
    + exists e. split; [exact E|]. cbn in *. tauto.
Qed.

(** Deactivating a court stops new reservations on it and leaves the existing
    ones alone: after [setCourtActive(by, courtId, false)] the reservations
    and payments are unchanged, and every [createReservation] on that court
    throws, with "Cancha no disponible" unless an earlier check (user,
    validation, date) fails first. *)
Theorem deactivated_court_takes_no_reservation env w by_ courtId :
  let db := store (after env w (CallSetCourtActive by_ courtId false)) in
  DB.reservations db = DB.reservations (store w)
  /\ DB.payments db = DB.payments (store w)
  /\ forall env' w' by' dateISO time forUserId,
       exists e,
         fst (createReservation db by' dateISO time courtId forUserId env' w') = Throw e
         /\ In e [InvalidUser; AccountNotValidated_email; AccountNotValidated_phone;
                  PastDate; TooFarAhead; ResourceUnavailable].
Proof.
  cbv zeta. split; [|split]; [api_run; reflexivity | api_run; reflexivity|].
  intros. apply createReservation_court_stop.
  assert (C : DB.courts (store (after env w (CallSetCourtActive by_ courtId false)))
              = update_first (fun x => Court.id x =? courtId)%string
                  (fun c => Court.mk (Court.id c) (Court.name c) false)
                  (DB.courts (store w))) by (api_run; reflexivity).
  rewrite C.
  destruct (find (fun x => Court.id x =? courtId)%string (DB.courts (store w)))
    as [c|] eqn:F.
  - rewrite (find_update_first _ _ _ c F); [reflexivity|].
    apply find_some in F as [_ F]. exact F.
  - rewrite update_first_absent, F by assumption. reflexivity.
Qed.

(** A blocked slot takes no reservation: after [addBlock] for a court, a date
    and a slot, every [createReservation] for the same three throws, with
    "Horario bloqueado por mantenimiento" unless an earlier check fails
    first; reservations and payments are not touched by the block. *)
Theorem blocked_slot_takes_no_reservation env w by_ courtId dateISO time reason :
  let db := store (after env w (CallAddBlock by_ courtId dateISO time reason)) in
  DB.reservations db = DB.reservations (store w)
  /\ DB.payments db = DB.payments (store w)
  /\ forall env' w' by' forUserId,
       exists e,
         fst (createReservation db by' dateISO time courtId forUserId env' w') = Throw e
         /\ In e [InvalidUser; AccountNotValidated_email; AccountNotValidated_phone;
                  PastDate; TooFarAhead; ResourceUnavailable; SlotBlocked].
Proof.
  cbv zeta. split; [|split]; [api_run; reflexivity | api_run; reflexivity|].
  intros. apply createReservation_block_stop.
  assert (B : exists b, DB.blocks (store (after env w
                          (CallAddBlock by_ courtId dateISO time reason)))
                        = push b (DB.blocks (store w))
                        /\ block_matches courtId dateISO time b = true).
  { api_run. eexists. split; [reflexivity|]. unfold block_matches. cbn.
    now rewrite !String.eqb_refl. }
  destruct B as (b & -> & M). unfold push. rewrite existsb_app. cbn.
  rewrite M. apply orb_true_r.
Qed.




(** New prices apply to the next reservations: a reservation created from
    the store that [setConfig] leaves is priced with the patched
    [priceSocio] or [priceNoSocio] when the patch gives one, and with the
    former price when it does not. *)
Theorem new_prices_apply_to_new_reservations
  env w by_ patch env' w' by' dateISO time courtId forUserId resId w'' :
  let db := store (after env w (CallSetConfig by_ patch)) in
  createReservation db by' dateISO time courtId forUserId env' w' = (Ok resId, w'') ->
  exists u r,
    find (fun x => User.id x =? target_user_id forUserId by')%string (DB.users (store w))
      = Some u
    /\ DB.reservations (store w'') = push r (DB.reservations (store w'))
    /\ Reservation.id r = resId
    /\ Reservation.price r =
       match User.userType u with
       | Socio =>
           option_or (ConfigPatch.priceSocio patch) (Config.priceSocio (DB.config (store w)))
       | NoSocio =>
           option_or (ConfigPatch.priceNoSocio patch)
             (Config.priceNoSocio (DB.config (store w)))
       end.
Proof.
  cbv zeta. intros C.
  destruct (created_price _ _ _ _ _ _ _ _ _ _ C) as (u & r & p & U & R & _ & I & _ & P & _).
  destruct (setConfig_frame env w by_ patch) as (Cf & _ & _ & Us & _).
  cbv zeta in Cf, Us. rewrite Us in U. rewrite Cf in P.
  exists u, r. repeat split; try assumption.
  rewrite P. destruct (User.userType u); reflexivity.
Qed.

Lemma new_prices_apply_to_new_reservations_witness :
  exists r,
    DB.reservations
      (store (snd (createReservation
                     (store (after sample_env (initial_world sample_env)
                               (CallSetConfig sample_admin
                                  (ConfigPatch.mk None None None (Some 500%Z) None None))))
                     sample_admin "2026-01-15" "08:00" "c1" None sample_env
                     (initial_world sample_env))))
    = push r (DB.reservations (store (initial_world sample_env)))
    /\ Reservation.price r = 500%Z.
Proof.
  destruct (createReservation
              (store (after sample_env (initial_world sample_env)
                        (CallSetConfig sample_admin
                           (ConfigPatch.mk None None None (Some 500%Z) None None))))
              sample_admin "2026-01-15" "08:00" "c1" None sample_env
              (initial_world sample_env)) as [[resId|e] w''] eqn:C;
    [|vm_compute in C; discriminate C].
  destruct (new_prices_apply_to_new_reservations _ _ _ _ _ _ _ _ _ _ _ _ _ C)
    as (u & r & U & R & _ & P).
  exists r. split; [exact R|]. rewrite P.
  vm_compute in U. injection U as <-. reflexivity.
Defined.

(** ** Validating an account *)

Lemma validateAccount_users env w by_ emailOk phoneOk :
  DB.users (store (after env w (CallValidateAccount by_ emailOk phoneOk)))
  = update_first (fun x => User.id x =? by_)%string (set_validation emailOk phoneOk)
      (DB.users (store w))
  /\ DB.config (store (after env w (CallValidateAccount by_ emailOk phoneOk)))
     = DB.config (store w).
Proof. api_run; split; reflexivity. Qed.

(** A validated account can book: when [by] is a stored user, after
    [validateAccount(by, {emailOk: true, phoneOk: true})] the user found
    under that identifier has both flags set and is otherwise unchanged, and
    a [createReservation] by that user for themself no longer fails on the
    user or on the validation checks. *)
Theorem validated_account_passes_the_checks env w by_ u :
  find (fun x => User.id x =? by_)%string (DB.users (store w)) = Some u ->
  let db := store (after env w (CallValidateAccount by_ (Some true) (Some true))) in
  (exists u',
     find (fun x => User.id x =? by_)%string (DB.users db) = Some u'
     /\ keeps_identity u u'
     /\ User.isEmailValidated u' = true /\ User.isPhoneValidated u' = true)
  /\ forall env' w' dateISO time courtId,
       ~ In (fst (createReservation db by_ dateISO time courtId None env' w'))
            [Throw InvalidUser; Throw AccountNotValidated_email;
             Throw AccountNotValidated_phone].
Proof.
  intros F. cbv zeta.
  destruct (validateAccount_users env w by_ (Some true) (Some true)) as [U C].
  assert (F' : find (fun x => User.id x =? by_)%string
                 (DB.users (store (after env w
                    (CallValidateAccount by_ (Some true) (Some true)))))
               = Some (set_validation (Some true) (Some true) u)).
  { rewrite U. apply find_update_first; [exact F|].
    apply find_some in F as [_ F]. exact F. }
  split.
  - eexists. split; [exact F'|]. unfold keeps_identity. cbn. tauto.
  - intros env' w' dateISO time courtId.
    pose proof (createReservation_first_failure
                  (store (after env w (CallValidateAccount by_ (Some true) (Some true))))
                  env' w' by_ dateISO time courtId None) as H.
    cbv zeta in H. unfold spec_checks in H.
    change (target_user_id None by_) with by_ in H. rewrite F' in H. cbn in H.
    rewrite !andb_false_r in H. cbn in H.
    intros [R|[R|[R|[]]]]; rewrite <- R in H.
    all: repeat match type of H with
           | match (if ?b then _ else _) with _ => _ end => destruct b
           | exists _, _ => destruct H as [? H]
           | _ /\ _ => destruct H as [H _]
           end; discriminate H.
Qed.

Lemma validated_account_passes_the_checks_witness :
  fst (createReservation
         (store (after sample_env shared_phone_world
                   (CallValidateAccount "usr_4_19bc0a1f000" (Some true) (Some true))))
         "usr_4_19bc0a1f000" "2026-01-15" "08:00" "c1" None sample_env shared_phone_world)
  <> Throw AccountNotValidated_email.
Proof.
  destruct (find (fun x => User.id x =? "usr_4_19bc0a1f000")%string
              (DB.users (store shared_phone_world))) as [u|] eqn:F;
    [|vm_compute in F; discriminate F].
  intros E.
  apply (proj2 (validated_account_passes_the_checks sample_env shared_phone_world
                  "usr_4_19bc0a1f000"%string u F)
           sample_env shared_phone_world "2026-01-15"%string "08:00"%string "c1"%string).
  right. left. symmetry. exact E.
Defined.

(** ** Cancelling frees the slot *)

Lemma count_if_zero {A : Type} (p : A -> bool) l :
  count_if p l = 0 -> existsb p l = false.
Proof.
  induction l as [|x l IH]; [reflexivity|]. rewrite count_if_cons. simpl.
  destruct (p x); [discriminate|]. exact IH.
Qed.

Lemma cancelReservation_found env w by_ reservationId reason r :
  find (has_id reservationId) (DB.reservations (store w)) = Some r ->
  exists l1 l2 r',
    DB.reservations (store w) = l1 ++ r :: l2
    /\ DB.reservations (store (after env w (CallCancelReservation by_ reservationId reason)))
       = l1 ++ r' :: l2
    /\ keeps_booking r r' /\ Reservation.status r' = CANCELLED
    /\ Reservation.cancelReason r' = Some (option_or reason EmptyString).
Proof.
  intros F.
  destruct (update_first_found (has_id reservationId)
              (set_res_status CANCELLED (now_iso env (tick w))
                 (Some (option_or reason EmptyString)))
              _ r F) as (l1 & l2 & E1 & E2).
  exists l1, l2, (set_res_status CANCELLED (now_iso env (tick w))
                    (Some (option_or reason EmptyString)) r).
  split; [exact E1|]. split.
  - rewrite <- E2. clear E1 E2. api_unfold. cbn. rewrite F. cbn.
    destruct (owner_email (store w) reservationId); reflexivity.
  - unfold keeps_booking. cbn. tauto.
Qed.

(** Cancelling frees the slot: in a store with at most one live reservation
    per court slot and per user slot, once a live reservation is cancelled no
    live reservation occupies its court, date and slot, and none occupies its
    user, date and slot, so both conflict checks of [createReservation] pass
    for them. *)
Theorem cancelling_frees_the_slot env w by_ reservationId reason r :
  no_double_booking (store w) ->
  find (has_id reservationId) (DB.reservations (store w)) = Some r ->
  is_live r = true ->
  let rs' :=
    DB.reservations (store (after env w (CallCancelReservation by_ reservationId reason))) in
  existsb (occupies_court (Reservation.courtId r) (Reservation.dateISO r)
             (Reservation.time r)) rs' = false
  /\ existsb (occupies_user (Reservation.userId r) (Reservation.dateISO r)
                (Reservation.time r)) rs' = false.
Proof.
  intros [Ic Iu] F L. cbv zeta.
  destruct (cancelReservation_found env w by_ reservationId reason r F)
    as (l1 & l2 & r' & E & -> & K & S & _).
  specialize (Ic (Reservation.courtId r) (Reservation.dateISO r) (Reservation.time r)).
  specialize (Iu (Reservation.userId r) (Reservation.dateISO r) (Reservation.time r)).
  rewrite E, count_if_app, count_if_cons in Ic, Iu.
  assert (Oc : occupies_court (Reservation.courtId r) (Reservation.dateISO r)
                 (Reservation.time r) r = true)
    by (unfold occupies_court; rewrite !String.eqb_refl; exact L).
  assert (Ou : occupies_user (Reservation.userId r) (Reservation.dateISO r)
                 (Reservation.time r) r = true)
    by (unfold occupies_user; rewrite !String.eqb_refl; exact L).
  rewrite Oc in Ic. rewrite Ou in Iu.
  split; apply count_if_zero; rewrite count_if_app, count_if_cons.
  - unfold occupies_court at 2. rewrite S. cbn. rewrite !andb_false_r. lia.
  - unfold occupies_user at 2. rewrite S. cbn. rewrite !andb_false_r. lia.
Qed.

Lemma cancelling_frees_the_slot_witness :
  existsb (occupies_court "c1" "2026-01-15" "08:00")
    (DB.reservations
       (store (after sample_env confirmed_world
                 (CallCancelReservation sample_admin "res_5_19bc0a1f000" None))))
  = false.
Proof.
  destruct (find (has_id "res_5_19bc0a1f000") (DB.reservations (store confirmed_world)))
    as [r|] eqn:F; [|vm_compute in F; discriminate F].
  pose proof F as F'. vm_compute in F'. injection F' as <-.
  refine (proj1 (cancelling_frees_the_slot sample_env confirmed_world sample_admin
                   "res_5_19bc0a1f000"%string None _ _ F eq_refl)).
  assert (E : length (DB.reservations (store confirmed_world)) = 1)
    by (vm_compute; reflexivity).
  unfold no_double_booking, one_per_court_slot, one_per_user_slot.
  destruct (DB.reservations (store confirmed_world)) as [|x [|y l]]; try discriminate E.
  split; intros c d t; rewrite count_if_cons; cbn;
    match goal with |- context [if ?b then _ else _] => destruct b end; lia.
Defined.

(** ** Registration and login *)

Lemma register_cases db env w email phone dni password :
  let out := register db email phone dni password env w in
  match first_failure (register_checks db email phone dni password) with
  | Some e => out = (Throw e, w)
  | None =>
      exists id createdAt entry n1 n2,
        fst out = Ok id
        /\ DB.users (store (snd out))
           = push (registered_user id email phone dni password createdAt)
               (DB.users (store w))
        /\ DB.audit (store (snd out)) = entry :: DB.audit (store w)
        /\ AuditEntry.by_ entry = id /\ AuditEntry.action entry = "Register"%string
        /\ DB.notifications (store (snd out)) = n1 :: n2 :: DB.notifications (store w)
        /\ Notification.channel n1 = ChEmail /\ Notification.channel n2 = ChWhatsApp
        /\ Notification.to n1 = toLowerCase (trim email)
        /\ Notification.to n2 = toLowerCase (trim email)
        /\ DB.reservations (store (snd out)) = DB.reservations (store w)
        /\ DB.payments (store (snd out)) = DB.payments (store w)
        /\ DB.courts (store (snd out)) = DB.courts (store w)
        /\ DB.blocks (store (snd out)) = DB.blocks (store w)
        /\ DB.config (store (snd out)) = DB.config (store w)
  end.
Proof.
  cbv zeta. unfold register_checks, register, same_email_or_dni. api_unfold. cbn.
  destruct (is_empty (trim dni) || _); cbn; [reflexivity|].
  destruct (includes_char _ _); cbn; [|reflexivity].
  destruct (is_empty (trim phone)); cbn; [reflexivity|].
  destruct (rx_test passRegex password); cbn; [|reflexivity].
  destruct (existsb _ (DB.users db)); cbn; [reflexivity|].
  unfold registered_user.
  destruct (validateSocioByDNI (trim dni)); cbn;
    eexists _, _, _, _, _; repeat split; reflexivity.
Qed.


(** The demo rule of the members' registry: a DNI whose last character,
    after trimming, is an even digit is an active member, and one that ends
    in any other character is not. *)
Theorem socio_by_last_digit dni c :
  last_char (trim dni) = Some c ->
  validateSocioByDNI dni = true <-> In c ["0"; "2"; "4"; "6"; "8"]%char.
Proof.
  intros L. unfold validateSocioByDNI. rewrite L. clear L.
  destruct c as [[] [] [] [] [] [] [] []]; vm_compute; split;
    try discriminate; try (intros _; tauto).
  all: intros H; repeat (destruct H as [H|H]; [discriminate H|]); contradiction.
Qed.

Lemma socio_by_last_digit_witness :
  validateSocioByDNI "12345678" = true /\ validateSocioByDNI " 30111223 " <> true.
Proof.
  split.
  - apply (socio_by_last_digit "12345678" "8"%char); [reflexivity|]. cbn. tauto.
  - intros H. apply (socio_by_last_digit " 30111223 " "3"%char) in H; [|reflexivity].
    repeat (destruct H as [H|H]; [discriminate H|]). contradiction.
Defined.

Lemma not_found_when_absent {A : Type} (p : A -> bool) l :
  existsb p l = false -> find p l = None.
Proof.
  induction l as [|x l IH]; simpl; [reflexivity|].
  destruct (p x); [discriminate|]. exact IH.
Qed.

(** Registering and logging in: after a successful [register], a login with
    the same email (as typed) and password returns the identifier that
    [register] returned, and a login with the same email and another
    password throws "Credenciales inválidas" and leaves the world as it
    was. *)
Theorem register_then_login env w email phone dni password id w1 :
  register (store w) email phone dni password env w = (Ok id, w1) ->
  (forall env' w', fst (loginEmailPassword (store w1) email password env' w') = Ok id)
  /\ (forall env' w' other,
        other <> password ->
        loginEmailPassword (store w1) email other env' w' = (Throw InvalidCredentials, w')).
Proof.
  intros R.
  pose proof (register_cases (store w) env w email phone dni password) as H.
  cbv zeta in H. rewrite R in H. unfold register_checks in H. cbn [first_failure] in H.
  destruct (is_empty (trim dni) || _); [discriminate H|].
  destruct (negb (includes_char _ _)); [discriminate H|].
  destruct (is_empty (trim phone)); [discriminate H|].
  destruct (negb (rx_test passRegex password)); [discriminate H|].
  destruct (existsb _ (DB.users (store w))) eqn:X; [discriminate H|].
  destruct H as (id' & createdAt & entry & n1 & n2 & [= <-] & U & _).
  cbn [snd] in U.
  assert (F : find (fun x => User.email x =? toLowerCase (trim email))%string
                (DB.users (store w1))
              = Some (registered_user id email phone dni password createdAt)).
  { rewrite U, find_push_new.
    - cbn. now rewrite String.eqb_refl.
    - apply not_found_when_absent.
      apply not_true_iff_false. intros T. apply not_true_iff_false in X. apply X.
      apply existsb_exists in T as (u & I & E). apply existsb_exists.
      exists u. split; [exact I|]. unfold same_email_or_dni. rewrite E. reflexivity. }
  split.
  - intros env' w'. unfold loginEmailPassword. rewrite F. api_unfold. cbn.
    rewrite String.eqb_refl. reflexivity.
  - intros env' w' other N. unfold loginEmailPassword. rewrite F. api_unfold. cbn.
    apply not_eq_sym, String.eqb_neq in N. rewrite N. reflexivity.
Qed.

Lemma register_then_login_witness :
  fst (loginEmailPassword (store shared_phone_world) "ana@edlp.com" "Abc123!" sample_env
         shared_phone_world) = Ok "usr_4_19bc0a1f000"%string.
Proof.
  apply (proj1 (register_then_login sample_env (initial_world sample_env)
                  "ana@edlp.com" "11-0000-0000" "30111222" "Abc123!"
                  "usr_4_19bc0a1f000" shared_phone_world ltac:(vm_compute; reflexivity))).
Defined.

(** ** A manual reservation paid in cash *)

Lemma update_first_push_new {A : Type} (q : A -> bool) (f : A -> A) x l :
  find q l = None -> q x = true -> update_first q f (push x l) = push (f x) l.
Proof.
  unfold push. induction l as [|y l IH]; simpl; intros F Q.
  - now rewrite Q.
  - destruct (q y); [discriminate|]. now rewrite IH.
Qed.

Lemma coupled_not_found reservationId rs ps :
  Forall2 coupled rs ps ->
  find (has_id reservationId) rs = None -> find (pays_for reservationId) ps = None.
Proof.
  intros H. induction H as [|r p rs ps C H IH]; simpl; [reflexivity|].
  assert (E : pays_for reservationId p = has_id reservationId r)
    by (unfold pays_for, has_id; destruct C as [-> _]; reflexivity).
  rewrite E. destruct (has_id reservationId r); [discriminate|exact IH].
Qed.

Lemma createReservation_logs db by_ dateISO time courtId forUserId env w resId w' :
  createReservation db by_ dateISO time courtId forUserId env w = (Ok resId, w') ->
  exists entry n1 n2,
    DB.audit (store w') = entry :: DB.audit (store w)
    /\ AuditEntry.action entry = "Reserva"%string
    /\ DB.notifications (store w') = n1 :: n2 :: DB.notifications (store w)
    /\ Notification.event n1 = "Reserva creada"%string
    /\ Notification.event n2 = "Reserva creada"%string.
Proof.
  api_run; intros H; try discriminate H; injection H as <- <-.
  all: eexists _, _, _; repeat split; reflexivity.
Qed.

Lemma registerCashPayment_unnotified db by_ reservationId env w :
  owner_email db reservationId = None ->
  fst (registerCashPayment db by_ reservationId env w) = Ok tt
  /\ DB.notifications (store (snd (registerCashPayment db by_ reservationId env w)))
     = DB.notifications (store w)
  /\ exists entry,
       DB.audit (store (snd (registerCashPayment db by_ reservationId env w)))
       = entry :: DB.audit (store w)
       /\ AuditEntry.action entry = "Pago"%string.
Proof.
  intros O. unfold registerCashPayment. rewrite O. api_run.
  all: repeat split; eexists; split; reflexivity.
Qed.

Lemma registerCashPayment_found db by_ reservationId env w r p :
  find (has_id reservationId) (DB.reservations (store w)) = Some r ->
  find (pays_for reservationId) (DB.payments (store w)) = Some p ->
  exists f g,
    DB.reservations (store (snd (registerCashPayment db by_ reservationId env w)))
    = update_first (has_id reservationId) f (DB.reservations (store w))
    /\ DB.payments (store (snd (registerCashPayment db by_ reservationId env w)))
       = update_first (pays_for reservationId) g (DB.payments (store w))
    /\ (forall r0, keeps_booking r0 (f r0) /\ Reservation.status (f r0) = CONFIRMED)
    /\ (forall p0, keeps_amount p0 (g p0) /\ Payment.status (g p0) = APPROVED
                   /\ Payment.method (g p0) = Some Efectivo).
Proof.
  intros Fr Fp. unfold registerCashPayment. api_unfold. cbn. rewrite Fr, Fp. cbn.
  eexists (fun r0 => set_res_status CONFIRMED _ (Reservation.cancelReason r0) r0),
    (set_pay (Some Efectivo) APPROVED _ _).
  split; [destruct (owner_email db reservationId); reflexivity|].
  split; [destruct (owner_email db reservationId); reflexivity|].
  split; intros; unfold keeps_booking, keeps_amount; cbn; tauto.
Qed.

(** A manual reservation paid in cash: when [adminCreateManualReservation]
    with [markPaidCash] returns an identifier that no reservation had, the
    new reservation is stored [CONFIRMED] with a payment [APPROVED] in cash for
    its price; three audit entries are written ("Reserva", "Pago", "Admin");
    and, because the cash payment is registered through the API of the store
    from before the reservation existed, the only notifications are the two
    "Reserva creada": none says that the payment was confirmed. *)
Theorem manual_cash_reservation env w by_ userId dateISO time courtId resId w' :
  reachable env w ->
  adminCreateManualReservation (store w) by_ userId dateISO time courtId true env w
  = (Ok resId, w') ->
  find (has_id resId) (DB.reservations (store w)) = None ->
  exists r p e1 e2 e3 n1 n2,
    DB.reservations (store w') = push r (DB.reservations (store w))
    /\ Reservation.id r = resId /\ Reservation.status r = CONFIRMED
    /\ DB.payments (store w') = push p (DB.payments (store w))
    /\ Payment.reservationId p = resId /\ Payment.status p = APPROVED
    /\ Payment.method p = Some Efectivo /\ Payment.amount p = Reservation.price r
    /\ DB.audit (store w') = e3 :: e2 :: e1 :: DB.audit (store w)
    /\ map AuditEntry.action [e1; e2; e3] = ["Reserva"; "Pago"; "Admin"]%string
    /\ DB.notifications (store w') = n1 :: n2 :: DB.notifications (store w)
    /\ map Notification.event [n1; n2] = ["Reserva creada"; "Reserva creada"]%string.
Proof.
  intros R A Fresh.
  unfold adminCreateManualReservation, bind in A.
  destruct (createReservation (store w) by_ dateISO time courtId userId env w)
    as [[resId1|e] w1] eqn:C; [|discriminate A].
  destruct (createReservation_logs _ _ _ _ _ _ _ _ _ _ C)
    as (e1 & n1 & n2 & A1 & Ac1 & N1 & Ev1 & Ev2).
  destruct (createReservation_cases (store w) by_ dateISO time courtId userId env w)
    as [(e & w0 & E & _)|(resId0 & w0 & E & Cr)]; rewrite C in E; [discriminate E|].
  injection E as <- <-. destruct Cr as [u ? ? ? ? ? _ _ _ Rs Ps _ _ _ _].
  assert (O : owner_email (store w) resId1 = None).
  { unfold owner_email. destruct (find (has_id resId1) (DB.reservations (store w))) eqn:F.
    - unfold adminCreateManualReservation in A.
      destruct (registerCashPayment (store w) by_ resId1 env w1) as [[[]|?] ?];
        cbn in A; try discriminate A; injection A as <- _; congruence.
    - reflexivity. }
  assert (I : resId1 = resId).
  { destruct (registerCashPayment (store w) by_ resId1 env w1) as [[[]|?] ?];
      cbn in A; [|discriminate A]. now injection A. }
  subst resId1.
  destruct (registerCashPayment_unnotified (store w) by_ resId env w1 O)
    as (Ok2 & N2 & e2 & A2 & Ac2).
  pose proof (coupled_not_found resId _ _ (reachable_coupled env w R) Fresh) as FreshP.
  destruct (registerCashPayment_found (store w) by_ resId env w1
              (Reservation.mk resId (User.id u) by_ dateISO time courtId PENDING_PAYMENT
                 (price_for (store w) u) createdAt updatedAt None)
              (Payment.mk payId resId None PENDING (price_for (store w) u)
                 pCreatedAt pUpdatedAt Meta.empty))
    as (f & g & Rs2 & Ps2 & Kf & Kg).
  { rewrite Rs, (find_push_new _ _ _ Fresh). unfold has_id. cbn.
    now rewrite String.eqb_refl. }
  { rewrite Ps, (find_push_new _ _ _ FreshP). unfold pays_for. cbn.
    now rewrite String.eqb_refl. }
  rewrite Rs, update_first_push_new in Rs2;
    [|exact Fresh|unfold has_id; cbn; apply String.eqb_refl].
  rewrite Ps, update_first_push_new in Ps2;
    [|exact FreshP|unfold pays_for; cbn; apply String.eqb_refl].
  destruct (registerCashPayment (store w) by_ resId env w1) as [[[]|?] w2];
    cbn in Ok2, N2, A2, Rs2, Ps2, A; [|discriminate Ok2].
  revert A. api_unfold. cbn. intros [= <-]. cbn.
  destruct (Kf (Reservation.mk resId (User.id u) by_ dateISO time courtId PENDING_PAYMENT
                  (price_for (store w) u) createdAt updatedAt None)) as [Kb Sf].
  destruct (Kg (Payment.mk payId resId None PENDING (price_for (store w) u)
                  pCreatedAt pUpdatedAt Meta.empty)) as (Ka & Sg & Mg).
  unfold keeps_booking in Kb. unfold keeps_amount in Ka. cbn in Kb, Ka.
  eexists _, _, e1, e2, _, n1, n2.
  split; [exact Rs2|]. split; [tauto|]. split; [exact Sf|].
  split; [exact Ps2|]. split; [tauto|]. split; [exact Sg|]. split; [exact Mg|].
  split; [intuition congruence|].
  split; [rewrite A2, A1; reflexivity|].
  split; [cbn; rewrite Ac1, Ac2; reflexivity|].
  split; [rewrite N2, N1; reflexivity|]. cbn. now rewrite Ev1, Ev2.
Qed.

Lemma manual_cash_reservation_witness :
  exists r p,
    DB.reservations
      (store (snd (adminCreateManualReservation (store (initial_world sample_env))
                     sample_admin None "2026-01-15" "08:00" "c1" true sample_env
                     (initial_world sample_env))))
    = push r (DB.reservations (store (initial_world sample_env)))
    /\ Reservation.status r = CONFIRMED
    /\ Payment.status p = APPROVED /\ Payment.method p = Some Efectivo.
Proof.
  destruct (adminCreateManualReservation (store (initial_world sample_env))
              sample_admin None "2026-01-15" "08:00" "c1" true sample_env
              (initial_world sample_env)) as [[resId|e] w'] eqn:A;
    [|vm_compute in A; discriminate A].
  destruct (manual_cash_reservation sample_env (initial_world sample_env) sample_admin
              None "2026-01-15"%string "08:00"%string "c1"%string resId w'
              (reachable_init _) A eq_refl)
    as (r & p & e1 & e2 & e3 & n1 & n2 & Rs & _ & Sr & _ & _ & Sp & Mp & _).
  exists r, p. cbn [snd]. tauto.
Defined.

(** ** The buttons of the administrator *)

(** The reservation identifier that a transition call works on. *)
Lemma transition_found env w c s reservationId r :
  match c with
  | CallPayWithMercadoPago _ x | CallRegisterCashPayment _ x
  | CallMarkNoShowAndRefund50 _ x =>
      x = reservationId
      /\ exists p, find (pays_for reservationId) (DB.payments (store w)) = Some p
  | CallCancelReservation _ x _ => x = reservationId
  | _ => False
  end ->
  target_status c = Some s ->
  find (has_id reservationId) (DB.reservations (store w)) = Some r ->
  exists r',
    find (has_id reservationId) (DB.reservations (store (after env w c))) = Some r'
    /\ keeps_booking r r' /\ Reservation.status r' = s.
Proof.
  intros C T F.
  assert (Q : has_id reservationId r = true) by (now apply find_some in F).
  destruct c; try contradiction; injection T as <-.
  1-2, 4: destruct C as (-> & p & P).
  4: subst reservationId0.
  all: api_unfold; cbn; rewrite F; try rewrite P; cbn.
  all: repeat match goal with
         | |- context [match owner_email ?d ?x with _ => _ end] =>
             destruct (owner_email d x)
         end; cbn.
  all: eexists; split; [apply find_update_first; [exact F|exact Q]|].
  all: unfold keeps_booking; cbn; tauto.
Qed.

(** The buttons of the administrator follow the life cycle: in a state
    reached through the API, pressing a button of [AdminReservationActions]
    that is rendered and enabled never revives a cancelled reservation, and
    it moves the reservation shown along one of PendingPayment to Confirmed
    (cash), Confirmed to NoShow, or PendingPayment, Confirmed or NoShow to
    Cancelled, leaving its booking data alone. *)
Theorem admin_buttons_follow_the_life_cycle env w admin reservationId a r :
  reachable env w ->
  find (has_id reservationId) (DB.reservations (store w)) = Some r ->
  admin_action_enabled (store w) reservationId a = true ->
  careful env w (admin_action_call admin reservationId a)
  /\ exists r',
       find (has_id reservationId)
         (DB.reservations (store (after env w (admin_action_call admin reservationId a))))
       = Some r'
       /\ keeps_booking r r'
       /\ target_status (admin_action_call admin reservationId a)
          = Some (Reservation.status r')
       /\ allowed_transition (Reservation.status r) (Reservation.status r') = true.
Proof.
  intros R F E. unfold admin_action_enabled in E. rewrite F in E.
  destruct (coupled_found reservationId _ _ r (reachable_coupled env w R) F)
    as (p & P & _).
  split.
  - destruct a; cbn; try exact I; intros r0 F0; rewrite F in F0; injection F0 as <-;
      unfold is_live; cbn in E; destruct (Reservation.status r); try discriminate E;
      reflexivity.
  - destruct a; cbn in E.
    + destruct (transition_found env w (CallRegisterCashPayment admin reservationId)
                  CONFIRMED reservationId r) as (r' & F' & K & S); eauto.
      exists r'. rewrite S. destruct (Reservation.status r); try discriminate E. auto.
    + destruct (transition_found env w
                  (CallCancelReservation admin reservationId (Some "Cancelación admin"%string))
                  CANCELLED reservationId r) as (r' & F' & K & S); eauto.
      exists r'. rewrite S. destruct (Reservation.status r); try discriminate E; auto.
    + destruct (transition_found env w (CallMarkNoShowAndRefund50 admin reservationId)
                  NO_SHOW reservationId r) as (r' & F' & K & S); eauto.
      exists r'. rewrite S. destruct (Reservation.status r); try discriminate E. auto.
Qed.

Lemma admin_buttons_follow_the_life_cycle_witness :
  exists r',
    find (has_id "res_5_19bc0a1f000")
      (DB.reservations
         (store (after sample_env confirmed_world
                   (admin_action_call sample_admin "res_5_19bc0a1f000" NoShowReintegro))))
    = Some r'
    /\ Reservation.status r' = NO_SHOW.
Proof.
  destruct (find (has_id "res_5_19bc0a1f000") (DB.reservations (store confirmed_world)))
    as [r|] eqn:F; [|vm_compute in F; discriminate F].
  assert (S : Reservation.status r = CONFIRMED)
    by (vm_compute in F; injection F as <-; reflexivity).
  destruct (admin_buttons_follow_the_life_cycle sample_env confirmed_world sample_admin
              "res_5_19bc0a1f000"%string NoShowReintegro r)
    as (_ & r' & F' & _ & T & _).
  - unfold confirmed_world, pending_world. reach.
  - exact F.
  - unfold admin_action_enabled. rewrite F. cbn. now rewrite S.
  - exists r'. split; [exact F'|]. cbn in T. now injection T.
Defined.

(** ** The registration form *)

Lemma existsb_rev {A : Type} (p : A -> bool) l : existsb p (rev l) = existsb p l.
Proof.
  induction l as [|x l IH]; simpl; [reflexivity|].
  rewrite existsb_app, IH. simpl. rewrite orb_false_r. apply orb_comm.
Qed.

Lemma includes_char_chars s c :
  includes_char s c = existsb (fun d => Ascii.eqb d c) (list_ascii_of_string s).
Proof. induction s as [|d s IH]; simpl; [reflexivity|]. now rewrite IH. Qed.

Lemma includes_char_rev s c : includes_char (string_rev s) c = includes_char s c.
Proof.
  unfold string_rev.
  now rewrite !includes_char_chars, list_ascii_of_string_of_list_ascii, existsb_rev.
Qed.

Lemma white_is_not_at c : is_white c = true -> Ascii.eqb c "@" = false.
Proof. destruct c as [[] [] [] [] [] [] [] []]; vm_compute; congruence. Qed.

Lemma lower_char_at c : Ascii.eqb (lower_char c) "@" = Ascii.eqb c "@".
Proof. destruct c as [[] [] [] [] [] [] [] []]; vm_compute; reflexivity. Qed.

Lemma includes_at_trimStart s : includes_char (trimStart s) "@" = includes_char s "@".
Proof.
  induction s as [|c s IH]; simpl; [reflexivity|].
  destruct (is_white c) eqn:W; [|reflexivity].
  now rewrite IH, (white_is_not_at c W).
Qed.

Lemma includes_at_trim s : includes_char (trim s) "@" = includes_char s "@".
Proof.
  unfold trim.
  now rewrite includes_char_rev, includes_at_trimStart, includes_char_rev,
    includes_at_trimStart.
Qed.

Lemma includes_at_toLowerCase s :
  includes_char (toLowerCase s) "@" = includes_char s "@".
Proof.
  induction s as [|c s IH]; simpl; [reflexivity|]. now rewrite IH, lower_char_at.
Qed.

Lemma is_empty_length s : is_empty s = (String.length s =? 0)%nat.
Proof. now destruct s. Qed.

(** The registration form and [register] agree: when it is not busy, the
    form enables its button exactly when the DNI, email, phone and password
    checks of [register] pass, so a registration sent by the form either
    succeeds or fails with "Ya existe un usuario con ese email o DNI". *)
Theorem form_agrees_with_register email phone dni password :
  canRegister email phone dni password false
  = register_inputs_ok email phone dni && rx_test passRegex password
  /\ (canRegister email phone dni password false = true ->
      forall db env w,
        fst (register db email phone dni password env w) = Throw DuplicateUser
        \/ exists id, fst (register db email phone dni password env w) = Ok id).
Proof.
  assert (E : canRegister email phone dni password false
              = register_inputs_ok email phone dni && rx_test passRegex password).
  { unfold canRegister, register_inputs_ok, passwordValid, emailValid, dniValid,
      phoneValid.
    rewrite includes_at_toLowerCase, includes_at_trim, !is_empty_length.
    destruct (Nat.leb_spec 6 (String.length (trim dni))),
      (Nat.ltb_spec (String.length (trim dni)) 6),
      (Nat.eqb_spec (String.length (trim dni)) 0),
      (Nat.eqb_spec (String.length (trim phone)) 0),
      (Nat.ltb_spec 0 (String.length (trim phone))); try lia.
    all: destruct (rx_test passRegex password), (includes_char email "@"); reflexivity. }
  split; [exact E|]. rewrite E. intros H db env w.
  apply andb_true_iff in H as [I P].
  pose proof (register_cases db env w email phone dni password) as R.
  cbv zeta in R. unfold register_checks in R. cbn [first_failure] in R.
  unfold register_inputs_ok in I. rewrite !andb_true_iff, !negb_true_iff in I.
  destruct I as [[D M] F]. rewrite D, M, F, P in R. cbn in R.
  destruct (existsb _ (DB.users db)).
  - left. now rewrite R.
  - right. destruct R as (id & _ & _ & _ & _ & R & _). eauto.
Qed.

Lemma form_agrees_with_register_witness :
  fst (register (store (initial_world sample_env)) "ana@edlp.com" "221-555-0101"
         "12345678" "Abc123!" sample_env (initial_world sample_env))
  = Throw DuplicateUser
  \/ exists id,
       fst (register (store (initial_world sample_env)) "ana@edlp.com" "221-555-0101"
              "12345678" "Abc123!" sample_env (initial_world sample_env)) = Ok id.
Proof.
  apply (proj2 (form_agrees_with_register "ana@edlp.com" "221-555-0101" "12345678"
                  "Abc123!")).
  reflexivity.
Defined.

(** ** The configuration screen *)

(** Prices typed in the configuration screen are bounded: [clamp(n, a, b)]
    with [a <= b] lies between [a] and [b], is [n] itself when [n] already
    does, and clamping twice changes nothing more. *)
Theorem clamp_bounds n a b :
  (a <= b)%Z ->
  (a <= clamp n a b <= b)%Z
  /\ ((a <= n <= b)%Z -> clamp n a b = n)
  /\ clamp (clamp n a b) a b = clamp n a b.
Proof. unfold clamp. lia. Qed.

Lemma clamp_bounds_witness :
  clamp 2500000 0 1000000 = 1000000%Z /\ clamp (-5) 0 1000000 = 0%Z.
Proof.
  destruct (clamp_bounds 2500000 0 1000000 ltac:(lia)) as ([L1 U1] & _).
  destruct (clamp_bounds (-5) 0 1000000 ltac:(lia)) as ([L2 U2] & _).
  unfold clamp in *. lia.
Defined.

(** ** The availability shown and the checks of the engine *)

Lemma map_get_set {V : Type} (k k' : string) (v : V) m :
  map_get k (map_set k' v m) = if (k' =? k)%string then Some v else map_get k m.
Proof.
  unfold map_get. induction m as [|[k0 v0] m IH]; simpl.
  - now destruct (k' =? k)%string.
  - destruct (k0 =? k')%string eqn:E; simpl.
    + apply String.eqb_eq in E. subst k0. now destruct (k' =? k)%string.
    + destruct (k0 =? k)%string eqn:E0; simpl.
      * destruct (k' =? k)%string eqn:E1; [|reflexivity].
        apply String.eqb_eq in E0, E1. subst. now rewrite String.eqb_refl in E.
      * exact IH.
Qed.

Lemma fold_map_get {V : Type} (entry : Court.t -> V) k cs m :
  map_get k (fold_left (fun byCourt c => map_set (Court.id c) (entry c) byCourt) cs m)
  = match find (fun x => Court.id x =? k)%string (rev cs) with
    | Some c => Some (entry c)
    | None => map_get k m
    end.
Proof.
  revert m. induction cs as [|c cs IH]; intros m; simpl; [reflexivity|].
  rewrite IH, map_get_set.
  destruct (find (fun x => Court.id x =? k)%string (rev cs)) as [c'|] eqn:F.
  - assert (F' : find (fun x => Court.id x =? k)%string (rev cs ++ [c]) = Some c').
    { clear IH. revert F. generalize (rev cs). intros l.
      induction l as [|y l IHl]; simpl; [discriminate|].
      destruct (Court.id y =? k)%string; auto. }
    now rewrite F'.
  - assert (F' : find (fun x => Court.id x =? k)%string (rev cs ++ [c])
                 = if (Court.id c =? k)%string then Some c else None).
    { clear IH. revert F. generalize (rev cs). intros l.
      induction l as [|y l IHl]; simpl; [reflexivity|].
      destruct (Court.id y =? k)%string; [discriminate|auto]. }
    rewrite F'. now destruct (Court.id c =? k)%string.
Qed.

Lemma unique_court c c' cs :
  NoDup (map Court.id cs) -> In c cs -> In c' cs -> Court.id c = Court.id c' -> c = c'.
Proof.
  induction cs as [|x cs IH]; simpl; [tauto|].
  intros N. apply NoDup_cons_iff in N as [Nx N].
  intros [->|I] [->|I'] E; auto.
  - exfalso. apply Nx. rewrite E. now apply in_map.
  - exfalso. apply Nx. rewrite <- E. now apply in_map.
Qed.

Lemma find_court_rev courtId c cs :
  NoDup (map Court.id cs) ->
  find (fun x => Court.id x =? courtId)%string cs = Some c ->
  find (fun x => Court.id x =? courtId)%string (rev cs) = Some c.
Proof.
  intros N F. apply find_some in F as [I E].
  destruct (find (fun x => Court.id x =? courtId)%string (rev cs)) as [c'|] eqn:F'.
  - apply find_some in F' as [I' E']. rewrite <- in_rev in I'.
    apply String.eqb_eq in E, E'. f_equal.
    apply (unique_court c' c cs N I' I). congruence.
  - exfalso. pose proof (find_none _ _ F' c) as X. cbv beta in X.
    rewrite E in X. rewrite <- in_rev in X. specialize (X I). discriminate X.
Qed.

Lemma existsb_filter {A : Type} (p q : A -> bool) l :
  existsb p (filter q l) = existsb (fun x => q x && p x) l.
Proof.
  induction l as [|x l IH]; simpl; [reflexivity|].
  destruct (q x); simpl; now rewrite IH.
Qed.

Lemma existsb_same {A : Type} (p q : A -> bool) l :
  (forall x, p x = q x) -> existsb p l = existsb q l.
Proof. intros E. induction l as [|x l IH]; simpl; [reflexivity|]. now rewrite E, IH. Qed.

Lemma createReservation_taken_stop db env w by_ dateISO time courtId forUserId :
  existsb (occupies_court courtId dateISO time) (DB.reservations db) = true ->
  exists e,
    fst (createReservation db by_ dateISO time courtId forUserId env w) = Throw e
    /\ In e [InvalidUser; AccountNotValidated_email; AccountNotValidated_phone;
             PastDate; TooFarAhead; ResourceUnavailable; SlotBlocked; SlotTaken].
Proof.
  intros T.
  destruct (existsb (block_matches courtId dateISO time) (DB.blocks db)) eqn:B.
  { destruct (createReservation_block_stop db env w by_ dateISO time courtId forUserId B)
      as (e & E & I). exists e. cbn in *. tauto. }
  destruct (find (fun x => Court.id x =? courtId)%string (DB.courts db)) as [c|] eqn:C.
  2: { destruct (createReservation_court_stop db env w by_ dateISO time courtId forUserId)
         as (e & E & I); [now rewrite C|]. exists e. cbn in *. tauto. }
  destruct (Court.isActive c) eqn:A.
  2: { destruct (createReservation_court_stop db env w by_ dateISO time courtId forUserId)
         as (e & E & I); [now rewrite C, A|]. exists e. cbn in *. tauto. }
  destruct (find (fun x => User.id x =? target_user_id forUserId by_)%string (DB.users db))
    as [u|] eqn:U.
  - destruct (createReservation_stops db env w by_ dateISO time courtId forUserId
                (firstn 6 (spec_checks db (fst (now_date env (tick w)))
                             (day_of (parse_date env (dateISO ++ "T00:00:00")%string))
                             by_ dateISO time courtId forUserId))
                SlotTaken
                (skipn 7 (spec_checks db (fst (now_date env (tick w)))
                            (day_of (parse_date env (dateISO ++ "T00:00:00")%string))
                            by_ dateISO time courtId forUserId)))
      as (e & E & I).
    + unfold spec_checks. rewrite U. unfold occupies_court in T. rewrite T. reflexivity.
    + exists e. split; [exact E|]. unfold spec_checks in I. rewrite U in I. cbn in I.
      cbn. tauto.
  - destruct (createReservation_stops db env w by_ dateISO time courtId forUserId
                [] InvalidUser []) as (e & E & I).
    + unfold spec_checks. now rewrite U.
    + exists e. split; [exact E|]. cbn in *. tauto.
Qed.

(** The availability shown agrees with the engine: when court identifiers
    are unique, the entry that [BookingView] shows for a court carries its
    active flag, and [createReservation] on that court, date and slot always
    throws when the entry is "Inactiva", "Mantenimiento" or "Ocupada" (at the
    court, block or slot check, or at an earlier one), while for "Disponible"
    it never throws "Cancha no disponible", "Horario bloqueado por
    mantenimiento" or "Ese turno ya está reservado". *)
Theorem availability_agrees_with_the_engine db dateISO time courtId c :
  NoDup (map Court.id (DB.courts db)) ->
  find (fun x => Court.id x =? courtId)%string (DB.courts db) = Some c ->
  exists status,
    map_get courtId (availability db dateISO time) = Some (Court.isActive c, status)
    /\ forall env w by_ forUserId,
         let result := fst (createReservation db by_ dateISO time courtId forUserId env w) in
         match status with
         | Inactiva =>
             exists e, result = Throw e
               /\ In e [InvalidUser; AccountNotValidated_email; AccountNotValidated_phone;
                        PastDate; TooFarAhead; ResourceUnavailable]
         | Mantenimiento =>
             exists e, result = Throw e
               /\ In e [InvalidUser; AccountNotValidated_email; AccountNotValidated_phone;
                        PastDate; TooFarAhead; ResourceUnavailable; SlotBlocked]
         | Ocupada =>
             exists e, result = Throw e
               /\ In e [InvalidUser; AccountNotValidated_email; AccountNotValidated_phone;
                        PastDate; TooFarAhead; ResourceUnavailable; SlotBlocked; SlotTaken]
         | Disponible =>
             ~ In result [Throw ResourceUnavailable; Throw SlotBlocked; Throw SlotTaken]
         end.
Proof.
  intros N F.
  assert (I : Court.id c = courtId)
    by (apply find_some in F as [_ E]; now apply String.eqb_eq in E).
  assert (B : existsb (fun b => Block.courtId b =? Court.id c)%string
                (filter (fun b => (Block.dateISO b =? dateISO) && (Block.time b =? time))%string
                   (DB.blocks db))
              = existsb (block_matches courtId dateISO time) (DB.blocks db)).
  { rewrite existsb_filter, I. apply existsb_same. intros b. unfold block_matches.
    destruct (Block.courtId b =? courtId)%string, (Block.dateISO b =? dateISO)%string,
      (Block.time b =? time)%string; reflexivity. }
  assert (O : existsb (fun r => Reservation.courtId r =? Court.id c)%string
                (filter (fun r => (Reservation.dateISO r =? dateISO)
                                  && (Reservation.time r =? time)
                                  && negb (res_status_eqb (Reservation.status r) CANCELLED))%string
                   (DB.reservations db))
              = existsb (occupies_court courtId dateISO time) (DB.reservations db)).
  { rewrite existsb_filter, I. apply existsb_same. intros r. unfold occupies_court.
    destruct (Reservation.courtId r =? courtId)%string,
      (Reservation.dateISO r =? dateISO)%string, (Reservation.time r =? time)%string,
      (res_status_eqb (Reservation.status r) CANCELLED); reflexivity. }
  exists (snd (availability_entry db dateISO time c)). split.
  - unfold availability. rewrite fold_map_get, (find_court_rev courtId c _ N F).
    reflexivity.
  - intros env w by_ forUserId. cbv zeta. unfold availability_entry. cbn [snd].
    rewrite B, O.
    destruct (Court.isActive c) eqn:A; cbn [negb].
    2: { apply createReservation_court_stop. now rewrite F, A. }
    destruct (existsb (block_matches courtId dateISO time) (DB.blocks db)) eqn:Bl.
    1: { now apply createReservation_block_stop. }
    destruct (existsb (occupies_court courtId dateISO time) (DB.reservations db)) eqn:Oc.
    1: { now apply createReservation_taken_stop. }
    pose proof (createReservation_first_failure db env w by_ dateISO time courtId forUserId)
      as H.
    cbv zeta in H. unfold spec_checks in H. unfold block_matches in Bl.
    unfold occupies_court in Oc. rewrite F, A, Bl, Oc in H.
    intros [R|[R|[R|[]]]]; rewrite <- R in H.
    all: destruct (find _ (DB.users db)); cbn in H.
    all: repeat match type of H with
           | match (if ?b then _ else _) with _ => _ end => destruct b
           | exists _, _ => destruct H as [? H]
           | _ /\ _ => destruct H as [H _]
           end; discriminate H.
Qed.

Lemma availability_agrees_with_the_engine_witness :
  map_get "c1" (availability (store pending_world) "2026-01-15" "08:00")
  = Some (true, Ocupada)
  /\ map_get "c2" (availability (store pending_world) "2026-01-15" "08:00")
     = Some (true, Disponible).
Proof.
  split.
  - destruct (availability_agrees_with_the_engine (store pending_world) "2026-01-15"
                "08:00" "c1" (Court.mk "c1" "Cancha 1" true))
      as (status & G & _).
    + vm_compute. repeat constructor; simpl; intuition discriminate.
    + reflexivity.
    + rewrite G. vm_compute in G. injection G as <-. reflexivity.
  - destruct (availability_agrees_with_the_engine (store pending_world) "2026-01-15"
                "08:00" "c2" (Court.mk "c2" "Cancha 2" true))
      as (status & G & _).
    + vm_compute. repeat constructor; simpl; intuition discriminate.
    + reflexivity.
    + rewrite G. vm_compute in G. injection G as <-. reflexivity.
Defined.

(** ** A booked slot *)




(** ** Who is notified of a transition *)

(** The notifications of a transition go to the owner: when the reservation
    and its owner are found, [payWithMercadoPago], [registerCashPayment] and
    [cancelReservation] put two notifications (one per channel) and
    [markNoShowAndRefund50] four in front of the list, all addressed to the
    email of the owner, whatever the status of the reservation was; when the
    reservation or its owner is not found, none is added. *)
Theorem transitions_notify_the_owner env w c reservationId s :
  target_status c = Some s ->
  match c with
  | CallPayWithMercadoPago _ x | CallRegisterCashPayment _ x
  | CallCancelReservation _ x _ | CallMarkNoShowAndRefund50 _ x => x = reservationId
  | _ => False
  end ->
  match owner_email (store w) reservationId with
  | Some to =>
      exists added,
        DB.notifications (store (after env w c)) = added ++ DB.notifications (store w)
        /\ length added = (if res_status_eqb s NO_SHOW then 4 else 2)
        /\ Forall (fun n => Notification.to n = to) added
        /\ map Notification.channel (firstn 2 added) = NOTIF_CHANNELS
  | None => DB.notifications (store (after env w c)) = DB.notifications (store w)
  end.
Proof.
  intros T X. destruct c; try contradiction; injection T as <-; subst reservationId0.
  all: unfold after, perform, ignore, payWithMercadoPago, registerCashPayment,
         cancelReservation, markNoShowAndRefund50.
  all: destruct (owner_email (store w) reservationId) as [to|]; api_run; try reflexivity.
  all: first
         [ eexists [_; _]; split; [reflexivity|]; split; [reflexivity|]; split;
             [repeat constructor | reflexivity]
         | eexists [_; _; _; _]; split; [reflexivity|]; split; [reflexivity|]; split;
             [repeat constructor | reflexivity] ].
Qed.

Lemma transitions_notify_the_owner_witness :
  exists added,
    DB.notifications
      (store (after sample_env cancelled_world
                (CallCancelReservation sample_admin "res_5_19bc0a1f000" (Some "otra vez"))))
    = added ++ DB.notifications (store cancelled_world)
    /\ length added = 2
    /\ Forall (fun n => Notification.to n = "admin@edlp.com"%string) added.
Proof.
  pose proof (transitions_notify_the_owner sample_env cancelled_world
                (CallCancelReservation sample_admin "res_5_19bc0a1f000" (Some "otra vez"%string))
                "res_5_19bc0a1f000"%string CANCELLED eq_refl eq_refl) as H.
  assert (O : owner_email (store cancelled_world) "res_5_19bc0a1f000"
              = Some "admin@edlp.com"%string) by (vm_compute; reflexivity).
  rewrite O in H. destruct H as (added & N & L & T & _).
  exists added. split; [exact N|]. split; [exact L|exact T].
Defined.
